(** * uniauth_saml2_idp: the models of the SAML2 identity provider

    A shallow embedding of [uniauth_saml2_idp/models.py]: the consent
    records, the service-provider registry, the metadata stores and the
    persistent identifiers, each in a module named after its Django model.

    Conventions.
    - A Python call that may raise is a [result]: [Ok v] is a normal return,
      [Raise msg] an exception whose [str] is [msg].
    - A method that mutates [self] returns the object after the call next to
      its result.
    - Date-times are integers, a number of microseconds; a database table is
      the list of its rows. *)

From stdpp Require Import gmap strings list fin_maps.
From Stdlib Require Import ZArith Ascii String.

Open Scope string_scope.

(** ** Python values shared by the models *)

Inductive result (A : Type) : Type :=
| Ok (v : A)
| Raise (msg : string).

Arguments Ok {A} v.
Arguments Raise {A} msg.

Definition is_ok {A} (r : result A) : bool :=
  match r with Ok _ => true | Raise _ => false end.

(** Truth value of a [str]: only the empty string is false. *)
Definition str_truthy (s : string) : bool :=
  match s with EmptyString => false | String _ _ => true end.

(** [s.split(sep)] for a separator of one character: every occurrence
    splits, empty fields are kept, and the empty string gives [['']]. *)
Fixpoint split (sep : ascii) (s : string) : list string :=
  match s with
  | EmptyString => [EmptyString]
  | String c rest =>
      if decide (c = sep) then EmptyString :: split sep rest
      else match split sep rest with
           | [] => [String c EmptyString]
           | w :: ws => String c w :: ws
           end
  end.

(** [bool(x)] for a variable holding [None] or a [str] (a nullable
    text column, a file name). *)
Definition truthy (o : option string) : bool :=
  match o with None => false | Some s => str_truthy s end.

(** A value stored in a descriptor mapping: [None], a [str], or whatever
    [json.loads] produced (of type [J]). *)
Inductive pyval (J : Type) : Type :=
| PNone
| PStr (s : string)
| PJson (j : J).

Arguments PNone {J}.
Arguments PStr {J} s.
Arguments PJson {J} j.

Definition of_nullable {J} (o : option string) : pyval J :=
  match o with None => PNone | Some s => PStr s end.

(** [posixpath.join(a, b)]. *)
Definition os_path_join (a b : string) : string :=
  match b with
  | String "/" _ => b
  | _ =>
      match a with
      | EmptyString => b
      | _ =>
          if decide (String.get (String.length a - 1) a = Some "/"%char)
          then a +:+ b else a +:+ "/" +:+ b
      end
  end.

(** ** The collaborators

    What the models call and the repository does not define: the standard
    library ([json.loads], [dict.update], [os.listdir], [open]), Django
    ([import_string], the file storage), [requests], [defusedxml] and the
    pysaml2 metadata of the running IdP. A call that raises gives the
    exception's text. *)
Class Env : Type := {
  (** the values [json.loads] returns *)
  json : Type;
  json_loads : string → result json;
  (** [d.update(j)] for [j] returned by [json.loads] *)
  dict_update : gmap string (pyval json) → json → result (gmap string (pyval json));
  (** [import_string(dotted_path)]: [Some msg] when it raises *)
  import_string : string → option string;
  (** [get_idp_config().metadata.service(entity_id, "spsso_descriptor",
      "assertion_consumer_service")]: [Some msg] when it raises *)
  metadata_service : string → option string;
  (** [requests.head(url).status_code], [requests.get(url).status_code] *)
  requests_head : string → result Z;
  requests_get : option string → result Z;
  (** the storage of the [file] column, by file name *)
  storage_read : string → result string;
  storage_path : string → result string;
  storage_url : string → result string;
  (** [defusedxml.ElementTree.fromstring] *)
  xml_fromstring : string → result unit;
  os_listdir : string → result (list string);
  (** [open(f).read()] *)
  open_read : string → result string
}.

(** The law of [dict.update] the development relies on: it adds or replaces
    entries and removes none. *)
Definition update_keeps_keys (E : Env) : Prop :=
  ∀ d j d' k, dict_update d j = Ok d' → is_Some (d !! k) → is_Some (d' !! k).

(** What [getattr(settings, name)] finds for a setting that holds a number
    of hours: no such attribute, in which case the call raises
    [AttributeError]; [None]; or an integer. *)
Inductive hours_setting : Type :=
| NotDefined
| IsNone
| IsInt (h : Z).

(** [django.conf.settings], the two settings the models read. *)
Record Settings : Type := {
  DEFAULT_FILE_STORAGE : string;
  SAML_IDP_USER_AGREEMENT_VALID_FOR : hours_setting
}.

(** Sequencing of calls that may raise: [x ← r; k] runs [k] on the value of
    [r], or propagates the exception of [r]. *)
#[export] Instance result_ret : MRet result := @Ok.
#[export] Instance result_bind : MBind result :=
  λ A B k r, match r with Ok v => k v | Raise msg => Raise msg end.

(** A [for] loop whose body may raise: the first exception ends it. *)
Fixpoint for_each {A} (body : A → result unit) (l : list A) : result unit :=
  match l with
  | [] => Ok tt
  | x :: rest => body x;; for_each body rest
  end.

Definition DEFAULT_PROCESSOR : string :=
  "uniauth_saml2_idp.processors.base.BaseProcessor".

(** ** AgreementRecord *)

Module AgreementRecord.

Record t : Type := {
  user : nat;
  sp_entity_id : string;
  attrs : string;
  created : Z
}.

(** The exceptions [is_expired] can raise, by class. *)
Inductive exception : Type :=
| AttributeError
| OverflowError.

(** How a call of [is_expired] ends. *)
Inductive outcome : Type :=
| Returns (b : bool)
| Raises (e : exception).

(** A date-time is its distance from [datetime.min], the first instant of
    the year 1, in microseconds; [DATETIME_MAX] is [datetime.max], the last
    microsecond of the year 9999 (its date has ordinal 3652059). *)
Definition DAY : Z := 86400000000.
Definition DATETIME_MAX : Z := (3652059 * DAY - 1)%Z.

(** [timedelta(hours=h)], in microseconds; [None] when it raises
    [OverflowError], its number of days ([h // 24]) being of magnitude
    above 999999999. *)
Definition timedelta_hours (h : Z) : option Z :=
  if bool_decide (-999999999 ≤ h / 24 ≤ 999999999)%Z
  then Some (h * 3600000000)%Z else None.

(** [when + delta] for a date-time; [None] when it raises [OverflowError],
    the sum being outside [datetime.min .. datetime.max]. *)
Definition datetime_add (when delta : Z) : option Z :=
  if bool_decide (0 ≤ when + delta ≤ DATETIME_MAX)%Z
  then Some (when + delta)%Z else None.

(** [is_expired]. [now] is [timezone.now()]. The setting is read with
    [getattr] and no default; the test [not valid_for] holds of [None] and
    of [0] only. *)
Definition is_expired (settings : Settings) (now : Z) (self : t) : outcome :=
  match SAML_IDP_USER_AGREEMENT_VALID_FOR settings with
  | NotDefined => Raises AttributeError
  | IsNone => Returns false
  | IsInt h =>
      if (h =? 0)%Z then Returns false
      else
        match timedelta_hours h with
        | None => Raises OverflowError
        | Some delta =>
            match datetime_add (created self) delta with
            | None => Raises OverflowError
            | Some limit => Returns (bool_decide (limit < now)%Z)
            end
        end
  end.

(** [wants_more_attrs]: [bool(set(newAttrs).difference(self.attrs.split(",")))]. *)
Definition wants_more_attrs (self : t) (newAttrs : list string) : bool :=
  bool_decide
    ((list_to_set newAttrs : gset string) ∖ list_to_set (split "," (attrs self)) ≠ ∅).

End AgreementRecord.


(** ** ServiceProvider *)

Module ServiceProvider.

Record t : Type := {
  entity_id : string;
  display_name : string;
  metadata_url : string;
  description : string;
  agreement_screen : bool;
  agreement_consent_form : bool;
  agreement_message : string;
  signing_algorithm : string;
  digest_algorithm : string;
  disable_encrypted_assertions : bool;
  attribute_processor : string;
  attribute_mapping : option string;
  force_attribute_release : bool;
  is_valid : bool;
  is_active : bool;
  created : Z;
  updated : option Z;
  last_seen : option Z
}.

Definition set_is_active (b : bool) (self : t) : t :=
  {| entity_id := entity_id self; display_name := display_name self;
     metadata_url := metadata_url self; description := description self;
     agreement_screen := agreement_screen self;
     agreement_consent_form := agreement_consent_form self;
     agreement_message := agreement_message self;
     signing_algorithm := signing_algorithm self;
     digest_algorithm := digest_algorithm self;
     disable_encrypted_assertions := disable_encrypted_assertions self;
     attribute_processor := attribute_processor self;
     attribute_mapping := attribute_mapping self;
     force_attribute_release := force_attribute_release self;
     is_valid := is_valid self; is_active := b;
     created := created self; updated := updated self;
     last_seen := last_seen self |}.

Definition set_is_valid (b : bool) (self : t) : t :=
  {| entity_id := entity_id self; display_name := display_name self;
     metadata_url := metadata_url self; description := description self;
     agreement_screen := agreement_screen self;
     agreement_consent_form := agreement_consent_form self;
     agreement_message := agreement_message self;
     signing_algorithm := signing_algorithm self;
     digest_algorithm := digest_algorithm self;
     disable_encrypted_assertions := disable_encrypted_assertions self;
     attribute_processor := attribute_processor self;
     attribute_mapping := attribute_mapping self;
     force_attribute_release := force_attribute_release self;
     is_valid := b; is_active := is_active self;
     created := created self; updated := updated self;
     last_seen := last_seen self |}.

(** [self.save()]: the row is written as it stands; [updated] is an
    [auto_now] column and takes the time of the save. *)
Definition save (now : Z) (self : t) : t :=
  {| entity_id := entity_id self; display_name := display_name self;
     metadata_url := metadata_url self; description := description self;
     agreement_screen := agreement_screen self;
     agreement_consent_form := agreement_consent_form self;
     agreement_message := agreement_message self;
     signing_algorithm := signing_algorithm self;
     digest_algorithm := digest_algorithm self;
     disable_encrypted_assertions := disable_encrypted_assertions self;
     attribute_processor := attribute_processor self;
     attribute_mapping := attribute_mapping self;
     force_attribute_release := force_attribute_release self;
     is_valid := is_valid self; is_active := is_active self;
     created := created self; updated := Some now;
     last_seen := last_seen self |}.

(** The dict [as_idpspconfig_dict_element] builds, one field per key. *)
Record SPConfig (J : Type) : Type := {
  processor : string;
  cfg_attribute_mapping : J;
  cfg_force_attribute_release : bool;
  cfg_display_name : string;
  display_description : string;
  display_agreement_message : string;
  cfg_signing_algorithm : string;
  cfg_digest_algorithm : string;
  cfg_disable_encrypted_assertions : bool;
  show_user_agreement_screen : bool;
  display_agreement_consent_form : bool
}.

Section with_env.
Context `{E : Env}.

(** [json.loads] of the nullable column [attribute_mapping]. *)
Definition loads_mapping (o : option string) : result json :=
  match o with
  | Some text => json_loads text
  | None => Raise "the JSON object must be str, bytes or bytearray, not NoneType"
  end.

(** The third check of [validate]: import [get_idp_config], then look the
    entity up in the metadata. [Some msg] when either raises. *)
Definition check_metadata (self : t) : option string :=
  match import_string "uniauth_saml2_idp.utils.get_idp_config" with
  | Some msg => Some msg
  | None => metadata_service (entity_id self)
  end.

(** [validate]. The three [try] blocks run in order; each failure
    overwrites [error] and clears [is_active]. *)
Definition validate (now : Z) (self : t) : t * result bool :=
  let error : option string := None in
  let '(error, self) :=
    match import_string (attribute_processor self) with
    | Some e => (Some e, set_is_active false self)
    | None => (error, self)
    end in
  let '(error, self) :=
    match loads_mapping (attribute_mapping self) with
    | Raise e =>
        (Some ("Attribute Mapping is not a valid JSON format: " +:+ e),
         set_is_active false self)
    | Ok _ => (error, self)
    end in
  let '(error, self) :=
    match check_metadata self with
    | Some e => (Some (e +:+ " is not present in any Metadata"),
                 set_is_active false self)
    | None => (error, self)
    end in
  if truthy error then
    let self := set_is_valid (is_active self) self in
    (save now self, Raise (default "" error))
  else
    let self := set_is_valid true self in
    (save now self, Ok (is_valid self)).

Definition as_idpspconfig_dict_element (self : t) : result (SPConfig json) :=
  mapping ← loads_mapping (attribute_mapping self);
  Ok {| processor := attribute_processor self;
        cfg_attribute_mapping := mapping;
        cfg_force_attribute_release := force_attribute_release self;
        cfg_display_name := display_name self;
        display_description := description self;
        display_agreement_message := agreement_message self;
        cfg_signing_algorithm := signing_algorithm self;
        cfg_digest_algorithm := digest_algorithm self;
        cfg_disable_encrypted_assertions := disable_encrypted_assertions self;
        show_user_agreement_screen := agreement_screen self;
        display_agreement_consent_form := agreement_consent_form self |}.

(** The loop of [as_idpspconfig_dict] over the rows selected, [d] being the
    dict built so far. *)
Fixpoint fill (d : gmap string (SPConfig json)) (entities : list t)
  : result (gmap string (SPConfig json)) :=
  match entities with
  | [] => Ok d
  | entity :: rest =>
      element ← as_idpspconfig_dict_element entity;
      fill (<[entity_id entity := element]> d) rest
  end.

(** [as_idpspconfig_dict], over the rows [objects] of the table. *)
Definition as_idpspconfig_dict (objects : list t) : result (gmap string (SPConfig json)) :=
  fill ∅ (filter (λ entity, is_active entity = true) objects).

End with_env.

End ServiceProvider.

(** ** MetadataStore *)

Module MetadataStore.

Record t : Type := {
  name : string;
  url : option string;
  (** the name of the stored file; [None] or [""] when there is none *)
  file : option string;
  type : string;
  kwargs : string;
  is_valid : bool;
  is_active : bool;
  created : Z;
  updated : option Z
}.

Definition set_is_active (b : bool) (self : t) : t :=
  {| name := name self; url := url self; file := file self; type := type self;
     kwargs := kwargs self; is_valid := is_valid self; is_active := b;
     created := created self; updated := updated self |}.

Definition set_is_valid (b : bool) (self : t) : t :=
  {| name := name self; url := url self; file := file self; type := type self;
     kwargs := kwargs self; is_valid := b; is_active := is_active self;
     created := created self; updated := updated self |}.

(** [self.save()]; [updated] is an [auto_now] column. *)
Definition save (now : Z) (self : t) : t :=
  {| name := name self; url := url self; file := file self; type := type self;
     kwargs := kwargs self; is_valid := is_valid self; is_active := is_active self;
     created := created self; updated := Some now |}.

(** One element of the lists [as_pysaml_mdstore_dict] returns: a dict, or
    a bare path (the [url] column, which may be [None], or a file path). *)
Inductive descriptor (J : Type) : Type :=
| Mapping (d : gmap string (pyval J))
| Bare (p : option string).

Arguments Mapping {J} d.
Arguments Bare {J} p.

Definition S3_STORAGE : string := "storages.backends.s3boto3.S3Boto3Storage".

(** The text [Empty file or url for "local" type. Metadata is not valid]. *)
Definition EMPTY_LOCAL_MSG : string :=
  let quote := String (ascii_of_nat 34) EmptyString in
  "Empty file or url for " +:+ quote +:+ "local" +:+ quote
    +:+ " type. Metadata is not valid".

Definition no_file_msg : string :=
  "The 'file' attribute has no file associated with it.".

Section with_env.
Context `{E : Env}.

(** [self.file.path], [self.file.url] and [self.file.read()]: each needs a
    file and asks the storage. *)
Definition file_path (self : t) : result string :=
  if truthy (file self) then storage_path (default "" (file self))
  else Raise no_file_msg.

Definition file_url (self : t) : result string :=
  if truthy (file self) then storage_url (default "" (file self))
  else Raise no_file_msg.

Definition file_read (self : t) : result string :=
  if truthy (file self) then storage_read (default "" (file self))
  else Raise no_file_msg.

(** [self.url + '/entities/']. *)
Definition entities_url (self : t) : result string :=
  match url self with
  | Some u => Ok (u +:+ "/entities/")
  | None => Raise "unsupported operand type(s) for +: 'NoneType' and 'str'"
  end.

Definition as_pysaml2_mdstore_row (settings : Settings) (self : t)
  : result (descriptor json) :=
  if bool_decide (type self = "remote" ∨ type self = "mdq") then
    let d : gmap string (pyval json) := {[ "url" := of_nullable (url self) ]} in
    d ← (if truthy (file self)
         then path ← file_path self; Ok (<["cert" := PStr path]> d)
         else Ok d);
    d ← (if str_truthy (kwargs self)
         then kw ← json_loads (kwargs self); dict_update d kw
         else Ok d);
    Ok (Mapping d)
  else if bool_decide (type self = "local") then
    if bool_decide (DEFAULT_FILE_STORAGE settings = S3_STORAGE) then
      u ← file_url self; Ok (Mapping {[ "url" := PStr u ]})
    else if negb (truthy (file self)) then Ok (Bare (url self))
    else path ← file_path self; Ok (Bare (Some path))
  else Raise "see models.MetadataStore.as_pysaml2_mdstore_row".

(** [isinstance(value, dict) and "url" in value]. *)
Definition is_url_dict (value : descriptor json) : bool :=
  match value with
  | Mapping d => bool_decide (is_Some (d !! "url"))
  | Bare _ => false
  end.

(** The key a row is filed under: [store.type], after the assignment
    [store.type = "remote"] made for a dict that has the key ["url"]. *)
Definition group_key (store : t) (value : descriptor json) : string :=
  if is_url_dict value then "remote" else type store.

(** [if not d.get(k): d[k] = []] and then [d[k].append(value)]. *)
Definition append_under (k : string) (value : descriptor json)
    (d : gmap string (list (descriptor json))) : gmap string (list (descriptor json)) :=
  let d := match d !! k with
           | None | Some [] => <[k := []]> d
           | Some _ => d
           end in
  <[k := (default [] (d !! k) ++ [value])%list]> d.

(** The loop of [as_pysaml_mdstore_dict] over the rows selected. *)
Fixpoint collect (settings : Settings) (d : gmap string (list (descriptor json)))
    (stores : list t) : result (gmap string (list (descriptor json))) :=
  match stores with
  | [] => Ok d
  | store :: rest =>
      value ← as_pysaml2_mdstore_row settings store;
      collect settings (append_under (group_key store value) value d) rest
  end.

(** [as_pysaml_mdstore_dict], over the rows [objects] of the table. *)
Definition as_pysaml_mdstore_dict (settings : Settings) (objects : list t)
  : result (gmap string (list (descriptor json))) :=
  collect settings ∅
    (filter (λ store, is_active store = true ∧ is_valid store = true) objects).

(** The [try] block of [validate] for a store of type [local]. *)
Definition check_local (self : t) : result unit :=
  (if truthy (file self)
   then content ← file_read self; xml_fromstring content
   else Ok tt);;
  if truthy (url self) then
    let dir := default "" (url self) in
    names ← os_listdir dir;
    for_each (λ f, content ← open_read f; xml_fromstring content)
             (os_path_join dir <$> names)
  else Ok tt.

(** The [try] blocks of [validate] for [mdq] and [remote]: [Ok status]
    when the request was answered. *)
Definition check_mdq (self : t) : result Z :=
  u ← entities_url self; requests_head u.

Definition check_remote (self : t) : result Z :=
  requests_get (url self).

(** [validate]. *)
Definition validate (now : Z) (self : t) : t * result bool :=
  let error : option string := None in
  let '(error, self) :=
    if bool_decide (type self = "mdq") then
      match check_mdq self with
      | Ok status =>
          if bool_decide (status ≠ 200%Z) then (error, set_is_active false self)
          else (error, self)
      | Raise e => (Some ("Endpoint is not reachable: " +:+ e), set_is_active false self)
      end
    else if bool_decide (type self = "remote") then
      match check_remote self with
      | Ok status =>
          if bool_decide (status ≠ 200%Z) then (error, set_is_active false self)
          else (error, self)
      | Raise e => (Some ("Endpoint is not reachable: " +:+ e), set_is_active false self)
      end
    else if bool_decide (type self = "local") then
      let '(error, self) :=
        match check_local self with
        | Ok _ => (error, self)
        | Raise e => (Some ("found an invalid XML: " +:+ e), set_is_active false self)
        end in
      if negb (truthy (url self) || truthy (file self)) then
        (Some EMPTY_LOCAL_MSG, set_is_active false self)
      else (error, self)
    else (error, self) in
  let '(error, self) :=
    match json_loads (kwargs self) with
    | Ok _ => (error, self)
    | Raise e => (Some ("kwargs JSON format error: " +:+ e), set_is_active false self)
    end in
  if truthy error then
    let self := set_is_valid (is_active self) self in
    (save now self, Raise (default "" error))
  else
    let self := set_is_valid true self in
    (save now self, Ok (is_valid self)).

End with_env.

End MetadataStore.

(** ** PersistentId *)

Module PersistentId.

Record t : Type := {
  user : nat;
  sp : nat;
  persistent_id : N;
  created : Z
}.

(** The two columns pairs [Meta.constraints] declares unique. *)
Definition sp_id (row : t) : nat * N := (sp row, persistent_id row).
Definition sp_user (row : t) : nat * nat := (sp row, user row).

(** [unique_ids_per_sp] and [unique_users_per_sp] hold of a table. *)
Definition constraints_hold (table : list t) : Prop :=
  NoDup (sp_id <$> table) ∧ NoDup (sp_user <$> table).

(** Whether inserting [row] would break one of the two constraints. *)
Definition violates (table : list t) (row : t) : bool :=
  bool_decide (sp_id row ∈ sp_id <$> table)
  || bool_decide (sp_user row ∈ sp_user <$> table).

(** [INSERT]: the database refuses a row that breaks a constraint. *)
Definition insert (row : t) (table : list t) : result (list t) :=
  if violates table row then Raise "UNIQUE constraint failed"
  else Ok (table ++ [row])%list.

(** [objects.filter(sp=s, user=u).first()]. *)
Definition lookup (u s : nat) (table : list t) : option t :=
  snd <$> list_find (λ row, sp row = s ∧ user row = u) table.

(** Modelled from the spec: the retry loop of [getOrCreate], whose code is
    not in [models.py]. [draws] are the random 128-bit values the generator
    yields, in order; an insertion the database refuses is tried again with
    the next value, and running out surfaces as a storage error. *)
Fixpoint allocate (now : Z) (u s : nat) (draws : list N) (table : list t)
  : result N * list t :=
  match draws with
  | [] => (Raise "storage error: allocation conflict", table)
  | v :: rest =>
      match insert {| user := u; sp := s; persistent_id := v; created := now |} table with
      | Ok table' => (Ok v, table')
      | Raise _ => allocate now u s rest table
      end
  end.

(** Modelled from the spec: [getOrCreate(user, sp)], whose code is not in
    [models.py]: look up the existing [(sp, user)] row; if absent, generate
    a value and insert, retrying at most [attempts] times in all. *)
Definition getOrCreate (attempts : nat) (now : Z) (draws : list N)
    (u s : nat) (table : list t) : result N * list t :=
  match lookup u s table with
  | Some row => (Ok (persistent_id row), table)
  | None => allocate now u s (take attempts draws) table
  end.

End PersistentId.

(** ** A closed world to run the models in

    One environment, with a few hosts and modules, on which the methods can
    be evaluated at concrete rows. Each answer below is the one the real
    collaborator gives for that argument. *)

Module Demo.

Definition SP_ID : string := "https://sp.example.org/metadata".

(** [json.loads] as far as the rows below need it: the text [{}] is the
    empty object, and a text that starts with no JSON value is refused with
    the message of [json.JSONDecodeError]. *)
Definition demo_json_loads (text : string) : result (list (string * string)) :=
  if decide (text = "{}") then Ok []
  else Raise "Expecting value: line 1 column 1 (char 0)".

(** [dict.update] with an object of string members. *)
Definition demo_dict_update (d : gmap string (pyval (list (string * string))))
    (j : list (string * string)) : result (gmap string (pyval (list (string * string)))) :=
  Ok (foldl (λ acc kv, <[kv.1 := PStr kv.2]> acc) d j).

(** The importable dotted paths are the default processor and
    [get_idp_config]; the module [quiet] raises at import an exception that
    carries no message; a path without a dot is refused by Django. *)
Definition demo_import_string (path : string) : option string :=
  if decide (path = DEFAULT_PROCESSOR) then None
  else if decide (path = "uniauth_saml2_idp.utils.get_idp_config") then None
  else if decide (path = "quiet.Processor") then Some ""
  else Some (path +:+ " doesn't look like a module path").

(** The metadata knows one service provider. *)
Definition demo_metadata_service (entity : string) : option string :=
  if decide (entity = SP_ID) then None else Some entity.

Definition demo_requests_head (u : string) : result Z :=
  if decide (u = "https://mdq.example.org/entities/") then Ok 200%Z
  else if decide (u = "https://old.example.org/entities/") then Ok 404%Z
  else Raise "Connection refused".

Definition demo_requests_get (u : option string) : result Z :=
  if decide (u = Some "https://md.example.org/metadata") then Ok 200%Z
  else if decide (u = Some "https://md.example.org/gone") then Ok 404%Z
  else Raise "Connection refused".

Definition demo_xml_fromstring (content : string) : result unit :=
  if decide (content = "<md/>") then Ok tt
  else Raise "syntax error: line 1, column 0".

Definition env : Env := {|
  json := list (string * string);
  json_loads := demo_json_loads;
  dict_update := demo_dict_update;
  import_string := demo_import_string;
  metadata_service := demo_metadata_service;
  requests_head := demo_requests_head;
  requests_get := demo_requests_get;
  storage_read := λ _, Ok "<md/>";
  storage_path := λ n, Ok ("/srv/media/" +:+ n);
  storage_url := λ n, Ok ("https://bucket.example.org/" +:+ n);
  xml_fromstring := demo_xml_fromstring;
  os_listdir := λ _, Ok [];
  open_read := λ _, Raise "No such file or directory"
|}.

Definition HOUR : Z := 3600000000.

(** The settings with a given file storage and consent validity window
    ([None] for a window set to [None]). *)
Definition settings (storage : string) (hours : option Z) : Settings :=
  {| DEFAULT_FILE_STORAGE := storage;
     SAML_IDP_USER_AGREEMENT_VALID_FOR :=
       match hours with None => IsNone | Some h => IsInt h end |}.

(** The settings of a project that does not define the validity window. *)
Definition settings_without_window (storage : string) : Settings :=
  {| DEFAULT_FILE_STORAGE := storage;
     SAML_IDP_USER_AGREEMENT_VALID_FOR := NotDefined |}.

(** The first instant of 2024 (its date has ordinal 738886). *)
Definition NEW_YEAR_2024 : Z := (738885 * AgreementRecord.DAY)%Z.

(** A consent record for the attribute list [a], created at [c]. *)
Definition consent (a : string) (c : Z) : AgreementRecord.t :=
  {| AgreementRecord.user := 1; AgreementRecord.sp_entity_id := SP_ID;
     AgreementRecord.attrs := a; AgreementRecord.created := c |}.

(** A service provider row with the column defaults of the model. *)
Definition sp_row (entity processor : string) (mapping : option string)
    (valid active : bool) : ServiceProvider.t :=
  {| ServiceProvider.entity_id := entity;
     ServiceProvider.display_name := entity;
     ServiceProvider.metadata_url := "";
     ServiceProvider.description := "";
     ServiceProvider.agreement_screen := false;
     ServiceProvider.agreement_consent_form := false;
     ServiceProvider.agreement_message := "";
     ServiceProvider.signing_algorithm := "http://www.w3.org/2001/04/xmldsig-more#rsa-sha256";
     ServiceProvider.digest_algorithm := "http://www.w3.org/2001/04/xmlenc#sha256";
     ServiceProvider.disable_encrypted_assertions := true;
     ServiceProvider.attribute_processor := processor;
     ServiceProvider.attribute_mapping := mapping;
     ServiceProvider.force_attribute_release := false;
     ServiceProvider.is_valid := valid;
     ServiceProvider.is_active := active;
     ServiceProvider.created := 0;
     ServiceProvider.updated := None;
     ServiceProvider.last_seen := None |}.

(** A metadata store row. *)
Definition md_row (kind : string) (u f : option string) (kw : string)
    (valid active : bool) : MetadataStore.t :=
  {| MetadataStore.name := "federation";
     MetadataStore.url := u;
     MetadataStore.file := f;
     MetadataStore.type := kind;
     MetadataStore.kwargs := kw;
     MetadataStore.is_valid := valid;
     MetadataStore.is_active := active;
     MetadataStore.created := 0;
     MetadataStore.updated := None |}.

End Demo.

(** ** Vocabulary of the statements

    Names for what the properties below speak about; none of them is a
    method of the models. *)

Section notions.
Context `{E : Env}.

(** The outcomes of the three checks of [validate], in the order they run:
    the processor import, the mapping, the metadata. *)
Definition sp_checks (self : ServiceProvider.t)
  : option string * result json * option string :=
  (import_string (ServiceProvider.attribute_processor self),
   ServiceProvider.loads_mapping (ServiceProvider.attribute_mapping self),
   ServiceProvider.check_metadata self).

(** Whether one of the three failed. *)
Definition any_failure (c : option string * result json * option string) : bool :=
  let '(imported, mapping, metadata) := c in
  bool_decide (is_Some imported) || negb (is_ok mapping) || bool_decide (is_Some metadata).

(** The message [validate] is left with after the three checks: the last
    failure wins. *)
Definition last_failure (c : option string * result json * option string)
  : option string :=
  match c with
  | (_, _, Some e) => Some (e +:+ " is not present in any Metadata")
  | (_, Raise e, None) => Some ("Attribute Mapping is not a valid JSON format: " +:+ e)
  | (Some e, Ok _, None) => Some e
  | (None, Ok _, None) => None
  end.

Definition sp_last_failure (self : ServiceProvider.t) : option string :=
  last_failure (sp_checks self).

(** The rows [as_idpspconfig_dict] selects. *)
Definition active (objects : list ServiceProvider.t) : list ServiceProvider.t :=
  filter (λ entity, ServiceProvider.is_active entity = true) objects.

(** The request [validate] makes for a store of type [mdq] or [remote]:
    a [HEAD] of [<url>/entities/], respectively a [GET] of the url. *)
Definition endpoint_check (self : MetadataStore.t) : result Z :=
  if bool_decide (MetadataStore.type self = "mdq") then MetadataStore.check_mdq self else MetadataStore.check_remote self.

(** The rows [as_pysaml_mdstore_dict] selects. *)
Definition gated (objects : list MetadataStore.t) : list MetadataStore.t :=
  filter (λ store, MetadataStore.is_active store = true ∧ MetadataStore.is_valid store = true) objects.

End notions.


(** ** Vocabulary of the further properties *)

Section more_notions.
Context `{E : Env}.

(** The descriptors of the rows [stores] that are filed under the key [k],
    in the order of the rows. *)
Definition filed_under (settings : Settings) (k : string)
    (stores : list MetadataStore.t) : list (MetadataStore.descriptor json) :=
  omap (λ store,
          match MetadataStore.as_pysaml2_mdstore_row settings store with
          | Ok v => if decide (MetadataStore.group_key store v = k) then Some v else None
          | Raise _ => None
          end) stores.

End more_notions.

(** [sep.join(names)], the way a list of attribute names becomes the text
    of the [attrs] column. *)
Fixpoint join (sep : string) (names : list string) : string :=
  match names with
  | [] => ""
  | [x] => x
  | x :: rest => x +:+ sep +:+ join sep rest
  end.

(** Whether the character [c] occurs in [s]. *)
Fixpoint occurs (c : ascii) (s : string) : bool :=
  match s with
  | EmptyString => false
  | String c' rest => bool_decide (c' = c) || occurs c rest
  end.

(** ** MetadataStore instances and the values they were loaded with

    [from_db] and [field_value_changed] speak of an instance's attributes
    by name; this module adds to the columns of [MetadataStore.t] the
    primary key and the attribute [_loaded_db_values]. *)

Module MetadataStoreInstance.

(** The value of a field: [None], a [str] (for the [file] field, the name
    of the file, which is what a [FieldFile] is compared by), a [bool], the
    integer key, or a date-time. *)
Inductive value : Type :=
| VNone
| VStr (s : string)
| VBool (b : bool)
| VInt (n : Z)
| VTime (t : Z).

#[export] Instance value_eq_dec : EqDecision value.
Proof. solve_decision. Defined.

Record t : Type := {
  (** [None] until the row is inserted *)
  id : option Z;
  fields : MetadataStore.t;
  (** [None] when the instance has no such attribute *)
  _loaded_db_values : option (gmap string value)
}.

Definition of_str (o : option string) : value :=
  match o with None => VNone | Some s => VStr s end.

Definition of_time (o : option Z) : value :=
  match o with None => VNone | Some t => VTime t end.

Definition of_key (o : option Z) : value :=
  match o with None => VNone | Some k => VInt k end.

(** The fields of the model, in the order of the class body, with the
    values an instance holds for them. *)
Definition field_values (self : t) : list (string * value) :=
  [("id", of_key (id self));
   ("name", VStr (MetadataStore.name (fields self)));
   ("url", of_str (MetadataStore.url (fields self)));
   ("file", of_str (MetadataStore.file (fields self)));
   ("type", VStr (MetadataStore.type (fields self)));
   ("kwargs", VStr (MetadataStore.kwargs (fields self)));
   ("is_valid", VBool (MetadataStore.is_valid (fields self)));
   ("is_active", VBool (MetadataStore.is_active (fields self)));
   ("created", VTime (MetadataStore.created (fields self)));
   ("updated", of_time (MetadataStore.updated (fields self)))].

(** The value of the first pair of [l] whose name is [k]. *)
Fixpoint assoc (k : string) (l : list (string * value)) : option value :=
  match l with
  | [] => None
  | (k', v) :: rest => if decide (k' = k) then Some v else assoc k rest
  end.

(** [getattr(self, field_name)] for the name of a field; [None] for any
    other name, which the model does not cover. *)
Definition getattr (self : t) (field_name : string) : option value :=
  assoc field_name (field_values self).

(** [from_db] for a row loaded with all its fields: the instance is built
    from the values and keeps them as [dict(zip(field_names, values))]. *)
Definition from_db (key : Z) (row : MetadataStore.t) : t :=
  let instance := {| id := Some key; fields := row; _loaded_db_values := None |} in
  {| id := Some key; fields := row;
     _loaded_db_values := Some (list_to_map (field_values instance)) |}.

(** [field_value_changed]. *)
Definition field_value_changed (self : t) (field_name : string) : option bool :=
  current_value ← getattr self field_name;
  Some (bool_decide
          (current_value
           ≠ default current_value
               (default ∅ (_loaded_db_values self) !! field_name))).

(** [validate] on an instance: the columns are those [MetadataStore.validate]
    leaves, [save] gives the key [fresh] to an instance that has none, and
    [_loaded_db_values] is not touched. *)
Definition validate `{E : Env} (fresh : Z) (now : Z) (self : t) : t * result bool :=
  let '(row, outcome) := MetadataStore.validate now (fields self) in
  ({| id := Some (default fresh (id self)); fields := row;
      _loaded_db_values := _loaded_db_values self |}, outcome).

End MetadataStoreInstance.
(** * Properties *)

(** ** Consent records *)

Section agreement_facts.
Import AgreementRecord Demo.

(** A window other than zero whose end is a date-time: the answer is the
    comparison of the current time with that end. *)
Lemma is_expired_window (storage : string) (h now : Z) (r : AgreementRecord.t) :
  h ≠ 0%Z →
  (-999999999 ≤ h / 24 ≤ 999999999)%Z →
  (0 ≤ created r + h * HOUR ≤ DATETIME_MAX)%Z →
  is_expired (settings storage (Some h)) now r
  = Returns (bool_decide (created r + h * HOUR < now)%Z).
Proof.
  intros Hh Hdays Hend. unfold is_expired, timedelta_hours, datetime_add, HOUR in *.
  simpl. destruct (Z.eqb_spec h 0) as [->|_]; [done|].
  rewrite bool_decide_eq_true_2 by done.
  rewrite bool_decide_eq_true_2 by done. reflexivity.
Qed.

(** A window other than zero whose end is not a date-time. *)
Lemma is_expired_overflow (storage : string) (h now : Z) (r : AgreementRecord.t) :
  h ≠ 0%Z →
  ¬ ((-999999999 ≤ h / 24 ≤ 999999999)%Z
     ∧ (0 ≤ created r + h * HOUR ≤ DATETIME_MAX)%Z) →
  is_expired (settings storage (Some h)) now r = Raises OverflowError.
Proof.
  intros Hh Hout. unfold is_expired, timedelta_hours, datetime_add, HOUR in *.
  simpl. destruct (Z.eqb_spec h 0) as [->|_]; [done|].
  destruct (bool_decide (-999999999 ≤ h / 24 ≤ 999999999)%Z) eqn:Hdays; [|done].
  apply bool_decide_eq_true in Hdays.
  destruct (bool_decide (0 ≤ created r + h * 3600000000 ≤ DATETIME_MAX)%Z) eqn:Hend;
    [|done].
  apply bool_decide_eq_true in Hend. by destruct Hout.
Qed.

(** C5, as the code has it: a window set to [None] or to zero never
    expires, whatever the age of the record. Any other window, a negative
    one included, expires the record exactly when the current time exceeds
    [created] plus that many hours, provided that end is a date-time
    ([timedelta(hours=h)] exists and the sum is within [datetime.min ..
    datetime.max]); otherwise the call raises [OverflowError]. When the
    setting is not defined at all the call raises [AttributeError]. With 24
    hours a record 25 hours old is expired and one an hour old is not. *)
Theorem is_expired_unset_zero_or_window (storage : string) (now : Z) (r : AgreementRecord.t) :
  is_expired (settings_without_window storage) now r = Raises AttributeError
  ∧ is_expired (settings storage None) now r = Returns false
  ∧ is_expired (settings storage (Some 0%Z)) now r = Returns false
  ∧ (∀ h : Z, h ≠ 0%Z →
       (-999999999 ≤ h / 24 ≤ 999999999)%Z →
       (0 ≤ created r + h * HOUR ≤ DATETIME_MAX)%Z →
       is_expired (settings storage (Some h)) now r
       = Returns (bool_decide (created r + h * HOUR < now)%Z))
  ∧ (∀ h : Z, h ≠ 0%Z →
       ¬ ((-999999999 ≤ h / 24 ≤ 999999999)%Z
          ∧ (0 ≤ created r + h * HOUR ≤ DATETIME_MAX)%Z) →
       is_expired (settings storage (Some h)) now r = Raises OverflowError)
  ∧ ((0 ≤ now - 1 * HOUR ≤ DATETIME_MAX)%Z →
     is_expired (settings storage (Some 24%Z)) now (consent (attrs r) (now - 25 * HOUR))
     = Returns true)
  ∧ ((0 ≤ now + 23 * HOUR ≤ DATETIME_MAX)%Z →
     is_expired (settings storage (Some 24%Z)) now (consent (attrs r) (now - 1 * HOUR))
     = Returns false).
Proof.
  split; [done|]. split; [done|]. split; [done|]. split; [|split; [|split]].
  - intros h Hh Hdays Hend. by apply is_expired_window.
  - intros h Hh Hout. by apply is_expired_overflow.
  - intros Hrange. rewrite is_expired_window.
    + f_equal. apply bool_decide_eq_true. simpl. unfold HOUR. lia.
    + done.
    + done.
    + simpl. unfold HOUR in *. lia.
  - intros Hrange. rewrite is_expired_window.
    + f_equal. apply bool_decide_eq_false. simpl. unfold HOUR. lia.
    + done.
    + done.
    + simpl. unfold HOUR in *. lia.
Qed.

(** C5 as stated fails: with a window of -1 hours a record created this
    very instant (the first instant of 2024) is reported expired, so a
    window [<= 0] does not always mean "never expires". *)
Lemma is_expired_negative_window_expires :
  is_expired (settings "" (Some (-1)%Z)) NEW_YEAR_2024 (consent "email" NEW_YEAR_2024)
  = Returns true
  ∧ ¬ (∀ (h now : Z) (r : AgreementRecord.t),
         (h <= 0)%Z → is_expired (settings "" (Some h)) now r = Returns false).
Proof.
  split; [reflexivity|].
  intros H.
  specialize (H (-1)%Z NEW_YEAR_2024 (consent "email" NEW_YEAR_2024) ltac:(lia)).
  discriminate H.
Qed.

Lemma difference_nonempty_iff (X Y : gset string) :
  X ∖ Y ≠ ∅ ↔ ¬ X ⊆ Y.
Proof.
  split.
  - intros Hne Hsub. apply Hne. apply leibniz_equiv, set_equiv. intros x.
    rewrite elem_of_difference. split.
    + intros [Hx Hn]. destruct Hn. by apply Hsub.
    + intros Hx. by apply not_elem_of_empty in Hx.
  - intros Hns Hemp. apply Hns. intros x Hx.
    destruct (decide (x ∈ Y)) as [|Hn]; [done|].
    exfalso. apply (not_elem_of_empty (C:=gset string) x).
    rewrite <- Hemp. by apply elem_of_difference.
Qed.

Lemma wants_more_attrs_iff (r : AgreementRecord.t) (new : list string) :
  wants_more_attrs r new = true
  ↔ ¬ (∀ a, a ∈ new → a ∈ split "," (attrs r)).
Proof.
  unfold wants_more_attrs. rewrite bool_decide_eq_true, difference_nonempty_iff.
  split; intros H Hsub; apply H.
  - intros a. rewrite !elem_of_list_to_set. auto.
  - intros a Ha. specialize (Hsub a). rewrite !elem_of_list_to_set in Hsub. auto.
Qed.

(** C8: [wants_more_attrs] is true exactly when some requested attribute is
    not among the comma-separated stored ones; stored [email] with request
    [email, first_name] gives true, stored [email,first_name] with request
    [email] gives false. *)
Theorem wants_more_attrs_not_subset :
  (∀ (r : AgreementRecord.t) (new : list string),
     wants_more_attrs r new = true
     ↔ ¬ ((list_to_set new : gset string) ⊆ list_to_set (split "," (attrs r))))
  ∧ wants_more_attrs (consent "email" 0) ["email"; "first_name"] = true
  ∧ wants_more_attrs (consent "email,first_name" 0) ["email"] = false.
Proof.
  split; [|split].
  - intros r new. unfold wants_more_attrs.
    by rewrite bool_decide_eq_true, difference_nonempty_iff.
  - apply wants_more_attrs_iff. intros H.
    specialize (H "first_name"). simpl in H.
    assert (Hin : "first_name" ∈ ["email"; "first_name"]) by (right; left).
    apply H in Hin. vm_compute in Hin.
    apply list_elem_of_singleton in Hin. discriminate Hin.
  - apply not_true_is_false. rewrite wants_more_attrs_iff. intros H. apply H.
    intros a Ha. apply list_elem_of_singleton in Ha as ->. vm_compute. left.
Qed.

End agreement_facts.

(** ** Validation of a service provider *)

Section sp_validate_facts.
Import ServiceProvider.
Context `{E : Env}.

(** Every check passes: [validate] returns [True], marks the row valid and
    leaves [is_active] as it was. *)
Lemma validate_sp_success (now : Z) (self : ServiceProvider.t) :
  sp_last_failure self = None →
  ∃ self', validate now self = (self', Ok true)
    ∧ is_valid self' = true ∧ is_active self' = is_active self.
Proof.
  unfold sp_last_failure, last_failure, sp_checks, validate. intros H.
  destruct (import_string (attribute_processor self)) eqn:Hi,
    (loads_mapping (attribute_mapping self)) eqn:Hj,
    (check_metadata self) eqn:Hm; try discriminate H.
  simpl. rewrite ?Hj; simpl. rewrite ?Hm; simpl. eauto.
Qed.

(** A failure whose message is not empty: [validate] raises the last
    failure's message and leaves the row inactive and invalid. *)
Lemma validate_sp_failure (now : Z) (self : ServiceProvider.t) (msg : string) :
  sp_last_failure self = Some msg → str_truthy msg = true →
  ∃ self', validate now self = (self', Raise msg)
    ∧ is_valid self' = false ∧ is_active self' = false.
Proof.
  unfold sp_last_failure, last_failure, sp_checks, validate. intros H Hmsg.
  destruct (import_string (attribute_processor self)) eqn:Hi;
    simpl; destruct (loads_mapping (attribute_mapping self)) eqn:Hj;
    simpl; rewrite ?Hj; destruct (check_metadata self) eqn:Hm;
    unfold check_metadata in *; simpl in *; rewrite ?Hm; simpl;
    simplify_eq; simpl; rewrite ?Hmsg; simpl; eauto; done.
Qed.

(** [validate] writes [is_valid], [is_active] and [updated] only. *)
Lemma validate_sp_frame (now : Z) (self : ServiceProvider.t) :
  let self' := (validate now self).1 in
  attribute_processor self' = attribute_processor self
  ∧ attribute_mapping self' = attribute_mapping self
  ∧ entity_id self' = entity_id self.
Proof.
  unfold validate.
  destruct (import_string (attribute_processor self)); simpl;
    destruct (loads_mapping (attribute_mapping self)); simpl;
    destruct (check_metadata _); simpl;
    repeat (match goal with |- context [if ?b then _ else _] => destruct b end; simpl);
    done.
Qed.

(** So a second run meets the same three outcomes. *)
Lemma validate_sp_checks_stable (now : Z) (self : ServiceProvider.t) :
  sp_checks (validate now self).1 = sp_checks self.
Proof.
  destruct (validate_sp_frame now self) as (Hp & Hm & Hi).
  unfold sp_checks, check_metadata. by rewrite Hp, Hm, Hi.
Qed.

(** The flags [validate] leaves, from the outcomes of the checks and the
    [is_active] it found. *)
Lemma validate_sp_flags (now : Z) (self : ServiceProvider.t) :
  let self' := (validate now self).1 in
  is_active self' = (if any_failure (sp_checks self) then false else is_active self)
  ∧ is_valid self' = (if truthy (sp_last_failure self) then is_active self' else true).
Proof.
  unfold sp_last_failure, last_failure, any_failure, sp_checks, validate.
  destruct (import_string (attribute_processor self)) as [e1|] eqn:Hi; simpl;
    destruct (loads_mapping (attribute_mapping self)) as [|e2] eqn:Hj; simpl;
    rewrite ?Hj; simpl;
    destruct (check_metadata self) as [e3|] eqn:Hm;
    unfold check_metadata in *; simpl in *; rewrite ?Hm; simpl;
    repeat (match goal with |- context [if ?b then _ else _] => destruct b eqn:? end; simpl);
    done.
Qed.

(** C10: a second run of [validate], with the stored columns and the
    outcomes of the three checks unchanged, leaves the pair
    [(is_valid, is_active)] the first run left. *)
Theorem validate_sp_idempotent (now1 now2 : Z) (self : ServiceProvider.t) :
  let once := (validate now1 self).1 in
  let twice := (validate now2 once).1 in
  (is_valid twice, is_active twice) = (is_valid once, is_active once).
Proof.
  intros once twice. subst twice once.
  pose proof (validate_sp_flags now1 self) as [Ha1 Hv1].
  pose proof (validate_sp_flags now2 (validate now1 self).1) as [Ha2 Hv2].
  cbv zeta in Ha1, Hv1, Ha2, Hv2. unfold sp_last_failure in *.
  rewrite (validate_sp_checks_stable now1 self) in Ha2, Hv2.
  assert (Hact : is_active (validate now2 (validate now1 self).1).1
                 = is_active (validate now1 self).1).
  { rewrite Ha2, Ha1. by destruct (any_failure _). }
  rewrite Hv2, Hv1, Hact. reflexivity.
Qed.

End sp_validate_facts.

(** C4, at a row the code mishandles: the processor [quiet.Processor]
    cannot be imported and the exception carries no message. [validate]
    clears [is_active] but then finds [error] empty, takes the success
    path and sets [is_valid] to true, returning [True] instead of raising:
    a failed check has turned [is_valid] from false to true. *)
Theorem validate_sp_silent_failure_marks_valid :
  let self := Demo.sp_row Demo.SP_ID "quiet.Processor" (Some "{}") false true in
  let '(self', outcome) := ServiceProvider.validate (E:=Demo.env) 1 self in
  import_string (Env:=Demo.env) (ServiceProvider.attribute_processor self) = Some ""
  ∧ ServiceProvider.is_active self' = false
  ∧ ServiceProvider.is_valid self' = true
  ∧ outcome = Ok true.
Proof. vm_compute. done. Qed.


(** ** The configuration snapshot *)

Section sp_snapshot_facts.
Import ServiceProvider.
Context `{E : Env}.

Lemma element_ok_iff (self : ServiceProvider.t) :
  is_ok (as_idpspconfig_dict_element self) = is_ok (loads_mapping (attribute_mapping self)).
Proof.
  unfold as_idpspconfig_dict_element. by destruct (loads_mapping _).
Qed.

(** The loop raises as soon as one row's projection raises. *)
Lemma fill_raises (entities : list ServiceProvider.t) (bad : ServiceProvider.t) :
  bad ∈ entities → is_ok (as_idpspconfig_dict_element bad) = false →
  ∀ d, is_ok (fill d entities) = false.
Proof.
  induction entities as [|e rest IH]; intros Hin Hbad d.
  - by apply elem_of_nil in Hin.
  - simpl. destruct (as_idpspconfig_dict_element e) as [c|msg] eqn:He; [|done].
    simpl. apply elem_of_cons in Hin as [->|Hin].
    + by rewrite He in Hbad.
    + by apply IH.
Qed.

(** The loop returns when every row's projection does. *)
Lemma fill_returns (entities : list ServiceProvider.t) :
  (∀ e, e ∈ entities → is_ok (as_idpspconfig_dict_element e) = true) →
  ∀ d, ∃ d', fill d entities = Ok d'.
Proof.
  induction entities as [|e rest IH]; intros Hall d; simpl; [eauto|].
  destruct (as_idpspconfig_dict_element e) as [c|msg] eqn:He.
  - simpl. apply IH. intros e' He'. apply Hall. by right.
  - specialize (Hall e ltac:(left)). by rewrite He in Hall.
Qed.

(** A key no row carries keeps the value it had. *)
Lemma fill_lookup_other (entities : list ServiceProvider.t) (k : string) :
  k ∉ entity_id <$> entities →
  ∀ d d', fill d entities = Ok d' → d' !! k = d !! k.
Proof.
  induction entities as [|e rest IH]; intros Hk d d' Hfill; simpl in *.
  - by simplify_eq.
  - destruct (as_idpspconfig_dict_element e) as [c|msg]; [|done]. simpl in Hfill.
    apply not_elem_of_cons in Hk as [Hne Hk].
    rewrite (IH Hk _ _ Hfill). by apply lookup_insert_ne.
Qed.

(** With one row per entity identifier, each row's key holds its own
    projection. *)
Lemma fill_lookup_row (entities : list ServiceProvider.t) :
  NoDup (entity_id <$> entities) →
  ∀ d d' e, fill d entities = Ok d' → e ∈ entities →
    ∃ c, as_idpspconfig_dict_element e = Ok c ∧ d' !! entity_id e = Some c.
Proof.
  induction entities as [|x rest IH]; intros Hnd d d' e Hfill Hin; simpl in *.
  - by apply elem_of_nil in Hin.
  - apply NoDup_cons in Hnd as [Hx Hnd].
    destruct (as_idpspconfig_dict_element x) as [c|msg] eqn:Hc; [|done].
    simpl in Hfill. apply elem_of_cons in Hin as [->|Hin].
    + exists c. split; [done|].
      rewrite (fill_lookup_other rest _ Hx _ _ Hfill). apply lookup_insert_eq.
    + by eapply IH.
Qed.

(** Every key of the result was there before or is a row's identifier. *)
Lemma fill_lookup_origin (entities : list ServiceProvider.t) (k : string) :
  ∀ d d', fill d entities = Ok d' → is_Some (d' !! k) →
    is_Some (d !! k) ∨ ∃ e, e ∈ entities ∧ entity_id e = k.
Proof.
  induction entities as [|x rest IH]; intros d d' Hfill Hk; simpl in *.
  - simplify_eq. by left.
  - destruct (as_idpspconfig_dict_element x) as [c|msg]; [|done]. simpl in Hfill.
    destruct (IH _ _ Hfill Hk) as [Hd|(e & He & <-)].
    + destruct (decide (entity_id x = k)) as [<-|Hne].
      * right. exists x. split; [left|done].
      * left. by rewrite lookup_insert_ne in Hd.
    + right. exists e. split; [by right|done].
Qed.

Lemma active_elem (objects : list ServiceProvider.t) (e : ServiceProvider.t) :
  e ∈ active objects ↔ e ∈ objects ∧ is_active e = true.
Proof. unfold active. rewrite list_elem_of_filter. tauto. Qed.

Lemma active_ids_nodup (objects : list ServiceProvider.t) :
  NoDup (entity_id <$> objects) → NoDup (entity_id <$> active objects).
Proof.
  unfold active. induction objects as [|x rest IH]; simpl; [done|].
  rewrite NoDup_cons. intros [Hx Hnd].
  rewrite filter_cons. destruct (decide (is_active x = true)).
  - rewrite fmap_cons, NoDup_cons. split; [|by apply IH].
    intros Hin. apply Hx. apply list_elem_of_fmap in Hin as (y & -> & Hy).
    apply list_elem_of_fmap. exists y. split; [done|].
    by apply list_elem_of_filter in Hy as [_ Hy].
  - by apply IH.
Qed.

(** With one row per identifier, an inactive row's identifier is no active
    row's. *)
Lemma inactive_id_not_active (objects : list ServiceProvider.t) (e : ServiceProvider.t) :
  NoDup (entity_id <$> objects) → e ∈ objects → is_active e = false →
  entity_id e ∉ entity_id <$> active objects.
Proof.
  intros Hnd Hin Hoff Hid.
  apply list_elem_of_fmap in Hid as (y & Hy & Hact).
  apply active_elem in Hact as [Hyin Hyon].
  assert (e = y); [|congruence].
  apply list_elem_of_lookup in Hin as [i Hi].
  apply list_elem_of_lookup in Hyin as [j Hj].
  assert (i = j).
  { eapply NoDup_lookup; [exact Hnd| |].
    - rewrite list_lookup_fmap, Hi. reflexivity.
    - rewrite list_lookup_fmap, Hj. simpl. by rewrite Hy. }
  congruence.
Qed.

(** C7, as the code has it: with one row per entity identifier (the column
    is unique), when the attribute mapping of every active row parses,
    [as_idpspconfig_dict] returns a dict that holds under each active row's
    identifier that row's projection, holds nothing under an inactive row's
    identifier and has no other key, whatever the rows' [is_valid]; and when
    the mapping of some active row does not parse, the call raises. *)
Theorem as_idpspconfig_dict_active_rows (objects : list ServiceProvider.t) :
  NoDup (entity_id <$> objects) →
  ((∀ e, e ∈ objects → is_active e = true →
      is_ok (loads_mapping (attribute_mapping e)) = true) →
   ∃ d, as_idpspconfig_dict objects = Ok d
     ∧ (∀ e, e ∈ objects → is_active e = true →
          ∃ c, as_idpspconfig_dict_element e = Ok c ∧ d !! entity_id e = Some c)
     ∧ (∀ e, e ∈ objects → is_active e = false → d !! entity_id e = None)
     ∧ (∀ k, is_Some (d !! k) →
          ∃ e, e ∈ objects ∧ is_active e = true ∧ entity_id e = k))
  ∧ (∀ e, e ∈ objects → is_active e = true →
       is_ok (loads_mapping (attribute_mapping e)) = false →
       is_ok (as_idpspconfig_dict objects) = false).
Proof.
  intros Hnd. unfold as_idpspconfig_dict. fold (active objects). split.
  - intros Hparse.
    destruct (fill_returns (active objects)) with (d := (∅ : gmap string (SPConfig json)))
      as [d Hd].
    { intros e He. apply active_elem in He as [Hin Hon].
      rewrite element_ok_iff. by apply Hparse. }
    exists d. split; [done|]. split; [|split].
    + intros e Hin Hon.
      apply (fill_lookup_row (active objects) (active_ids_nodup _ Hnd) _ _ e Hd).
      by apply active_elem.
    + intros e Hin Hoff.
      rewrite (fill_lookup_other (active objects) _
                 (inactive_id_not_active _ _ Hnd Hin Hoff) _ _ Hd).
      apply lookup_empty.
    + intros k Hk.
      destruct (fill_lookup_origin (active objects) k _ _ Hd Hk) as [Hempty|(e & He & Hid)].
      * rewrite lookup_empty in Hempty. by destruct Hempty.
      * apply active_elem in He as [Hin Hon]. eauto.
  - intros e Hin Hon Hbad. apply (fill_raises (active objects) e).
    + by apply active_elem.
    + by rewrite element_ok_iff.
Qed.

End sp_snapshot_facts.

(** C7 as stated fails: an active row whose stored mapping is not JSON gets
    no record, the call raises instead. Such a row is typically invalid and
    was activated by hand. *)
Lemma as_idpspconfig_dict_active_row_without_record :
  let bad := Demo.sp_row Demo.SP_ID DEFAULT_PROCESSOR (Some "oops") false true in
  ServiceProvider.is_active bad = true
  ∧ ServiceProvider.as_idpspconfig_dict (E:=Demo.env) [bad]
    = Raise "Expecting value: line 1 column 1 (char 0)"
  ∧ ¬ (∃ d, ServiceProvider.as_idpspconfig_dict (E:=Demo.env) [bad] = Ok d
            ∧ is_Some (d !! ServiceProvider.entity_id bad)).
Proof.
  split; [reflexivity|]. split; [reflexivity|].
  intros (d & Hd & _). discriminate Hd.
Qed.

(** The theorem of C7 at a table of two rows: an active one that was never
    validated and a valid one that is switched off. *)
Lemma as_idpspconfig_dict_active_rows_witness :
  let on := Demo.sp_row "https://a.example.org" DEFAULT_PROCESSOR (Some "{}") false true in
  let off := Demo.sp_row "https://b.example.org" DEFAULT_PROCESSOR (Some "{}") true false in
  NoDup (ServiceProvider.entity_id <$> [on; off])
  ∧ ∃ d, ServiceProvider.as_idpspconfig_dict (E:=Demo.env) [on; off] = Ok d
      ∧ is_Some (d !! "https://a.example.org")
      ∧ d !! "https://b.example.org" = None.
Proof.
  intros on off.
  assert (Hnd : NoDup (ServiceProvider.entity_id <$> [on; off])).
  { refine (bool_decide_unpack (NoDup _) _). vm_compute. exact I. }
  split; [exact Hnd|].
  destruct (as_idpspconfig_dict_active_rows (E:=Demo.env) [on; off] Hnd) as [Hok _].
  destruct Hok as (d & Hd & Hon & Hoff & _).
  { intros e He _. repeat (apply elem_of_cons in He as [->|He]; [reflexivity|]).
    by apply elem_of_nil in He. }
  exists d. split; [exact Hd|]. split.
  - destruct (Hon on) as (c & _ & Hc); [left|reflexivity|]. exists c. exact Hc.
  - apply (Hoff off); [right; left|reflexivity].
Defined.

(** ** Validation of a metadata store *)

Section md_validate_facts.
Import MetadataStore.
Context `{E : Env}.

Lemma check_mdq_head (self : MetadataStore.t) (u : string) :
  url self = Some u → check_mdq self = requests_head (u +:+ "/entities/").
Proof. unfold check_mdq, entities_url. by intros ->. Qed.

Lemma check_remote_get (self : MetadataStore.t) :
  check_remote self = requests_get (url self).
Proof. reflexivity. Qed.

(** A request that raises: [validate] raises too and the store is left
    inactive and invalid. *)
Lemma validate_md_transport_error (now : Z) (self : MetadataStore.t) (e : string) :
  type self = "mdq" ∨ type self = "remote" →
  endpoint_check self = Raise e →
  ∃ self' msg, validate now self = (self', Raise msg)
    ∧ is_active self' = false ∧ is_valid self' = false.
Proof.
  unfold endpoint_check, validate. intros Hty Hreq.
  destruct (decide (type self = "mdq")) as [Hq|Hq].
  - rewrite !bool_decide_eq_true_2 in * by done. rewrite Hreq. simpl.
    destruct (json_loads (kwargs self)); simpl; eauto.
  - destruct Hty as [?|Hr]; [done|].
    rewrite (bool_decide_eq_false_2 _ Hq) in *.
    rewrite (bool_decide_eq_true_2 _ Hr). rewrite Hreq. simpl.
    destruct (json_loads (kwargs self)); simpl; eauto.
Qed.

(** An answer other than 200, with [kwargs] that parse: the store is
    switched off, no error is recorded, and [validate] marks the store
    valid and returns [True]. *)
Lemma validate_md_bad_status (now : Z) (self : MetadataStore.t) (status : Z) :
  type self = "mdq" ∨ type self = "remote" →
  endpoint_check self = Ok status → status ≠ 200%Z →
  is_ok (json_loads (kwargs self)) = true →
  ∃ self', validate now self = (self', Ok true)
    ∧ is_active self' = false ∧ is_valid self' = true.
Proof.
  unfold endpoint_check, validate. intros Hty Hreq Hst Hkw.
  destruct (decide (type self = "mdq")) as [Hq|Hq].
  - rewrite !bool_decide_eq_true_2 in * by done. rewrite Hreq.
    rewrite (bool_decide_eq_true_2 _ Hst). simpl.
    destruct (json_loads (kwargs self)); [|done]. simpl. eauto.
  - destruct Hty as [?|Hr]; [done|].
    rewrite (bool_decide_eq_false_2 _ Hq) in *.
    rewrite (bool_decide_eq_true_2 _ Hr). rewrite Hreq.
    rewrite (bool_decide_eq_true_2 _ Hst). simpl.
    destruct (json_loads (kwargs self)); [|done]. simpl. eauto.
Qed.

End md_validate_facts.

(** C1, at rows the code mishandles: a [remote] store whose url answers 404
    to the [GET], and an [mdq] store whose [<url>/entities/] answers 404 to
    the [HEAD]. [validate] clears [is_active] but records no error for the
    status, so it goes on to set [is_valid] to true and returns [True]: the
    store does not end invalid, as it does when the request raises. *)
Theorem validate_md_status_404_marks_valid :
  let remote := Demo.md_row "remote" (Some "https://md.example.org/gone") None "{}" false true in
  let mdq := Demo.md_row "mdq" (Some "https://old.example.org") None "{}" false true in
  requests_get (Env:=Demo.env) (MetadataStore.url remote) = Ok 404%Z
  ∧ requests_head (Env:=Demo.env) "https://old.example.org/entities/" = Ok 404%Z
  ∧ (let '(self', outcome) := MetadataStore.validate (E:=Demo.env) 1 remote in
     MetadataStore.is_active self' = false
     ∧ MetadataStore.is_valid self' = true ∧ outcome = Ok true)
  ∧ (let '(self', outcome) := MetadataStore.validate (E:=Demo.env) 1 mdq in
     MetadataStore.is_active self' = false
     ∧ MetadataStore.is_valid self' = true ∧ outcome = Ok true).
Proof. vm_compute. done. Qed.

(** ** The metadata snapshot *)

Section md_snapshot_facts.
Import MetadataStore.
Context `{E : Env}.
Variable settings : Settings.

Lemma gated_elem (objects : list MetadataStore.t) (store : MetadataStore.t) :
  store ∈ gated objects
  ↔ store ∈ objects ∧ is_active store = true ∧ is_valid store = true.
Proof. unfold gated. rewrite list_elem_of_filter. tauto. Qed.

Lemma append_under_lookup (k k' : string) (v : descriptor json)
    (d : gmap string (list (descriptor json))) :
  append_under k v d !! k'
  = if decide (k = k') then Some (default [] (d !! k) ++ [v])%list else d !! k'.
Proof.
  unfold append_under. destruct (decide (k = k')) as [<-|Hne].
  - rewrite lookup_insert_eq. f_equal. f_equal.
    destruct (d !! k) as [[|x l]|] eqn:Hk; simpl;
      rewrite ?lookup_insert_eq, ?Hk; done.
  - rewrite lookup_insert_ne by done.
    destruct (d !! k) as [[|x l]|]; rewrite ?lookup_insert_ne; done.
Qed.

(** A store of type [remote] or [mdq] gives a dict that has the key [url]:
    the dict starts with it and nothing removes it. *)
Lemma row_of_endpoint_is_url_dict (self : MetadataStore.t) (v : descriptor json) :
  update_keeps_keys E →
  type self = "remote" ∨ type self = "mdq" →
  as_pysaml2_mdstore_row settings self = Ok v → is_url_dict v = true.
Proof.
  intros Hkeep Hty. unfold as_pysaml2_mdstore_row.
  rewrite (bool_decide_eq_true_2 _ Hty).
  set (d0 := ({[ "url" := of_nullable (url self) ]} : gmap string (pyval json))).
  assert (H0 : is_Some (d0 !! "url")) by (unfold d0; rewrite lookup_singleton_eq; eauto).
  destruct (truthy (file self)).
  - destruct (file_path self) as [p|]; simpl; [|done].
    assert (H1 : is_Some (<["cert" := PStr p]> d0 !! "url")).
    { rewrite lookup_insert_ne by done. exact H0. }
    destruct (str_truthy (kwargs self)); simpl.
    + destruct (json_loads (kwargs self)) as [kw|]; simpl; [|done].
      destruct (dict_update _ kw) as [d2|] eqn:Hup; simpl; [|done].
      intros [= <-]. simpl. apply bool_decide_eq_true. eapply Hkeep; eauto.
    + intros [= <-]. simpl. by apply bool_decide_eq_true.
  - simpl. destruct (str_truthy (kwargs self)); simpl.
    + destruct (json_loads (kwargs self)) as [kw|]; simpl; [|done].
      destruct (dict_update _ kw) as [d2|] eqn:Hup; simpl; [|done].
      intros [= <-]. simpl. apply bool_decide_eq_true. eapply Hkeep; eauto.
    + intros [= <-]. simpl. by apply bool_decide_eq_true.
Qed.

(** So no row is ever filed under [mdq]. *)
Lemma group_key_never_mdq (self : MetadataStore.t) (v : descriptor json) :
  update_keeps_keys E →
  as_pysaml2_mdstore_row settings self = Ok v → group_key self v ≠ "mdq".
Proof.
  intros Hkeep Hrow. unfold group_key.
  destruct (is_url_dict v) eqn:Hv; [done|].
  intros Hty. rewrite (row_of_endpoint_is_url_dict self v Hkeep) in Hv; [done| |done].
  by right.
Qed.

(** The loop raises as soon as one row raises. *)
Lemma collect_raises (stores : list MetadataStore.t) (bad : MetadataStore.t) :
  bad ∈ stores → is_ok (as_pysaml2_mdstore_row settings bad) = false →
  ∀ d, is_ok (collect settings d stores) = false.
Proof.
  induction stores as [|s rest IH]; intros Hin Hbad d.
  - by apply elem_of_nil in Hin.
  - simpl. destruct (as_pysaml2_mdstore_row settings s) as [v|msg] eqn:Hs; [|done].
    simpl. apply elem_of_cons in Hin as [->|Hin].
    + by rewrite Hs in Hbad.
    + by apply IH.
Qed.

(** The loop returns when every row does. *)
Lemma collect_returns (stores : list MetadataStore.t) :
  (∀ s, s ∈ stores → is_ok (as_pysaml2_mdstore_row settings s) = true) →
  ∀ d, ∃ d', collect settings d stores = Ok d'.
Proof.
  induction stores as [|s rest IH]; intros Hall d; simpl; [eauto|].
  destruct (as_pysaml2_mdstore_row settings s) as [v|msg] eqn:Hs.
  - simpl. apply IH. intros s' Hs'. apply Hall. by right.
  - specialize (Hall s ltac:(left)). by rewrite Hs in Hall.
Qed.

(** What was filed stays filed. *)
Lemma collect_keeps (stores : list MetadataStore.t) :
  ∀ d d' k vs v, collect settings d stores = Ok d' →
    d !! k = Some vs → v ∈ vs → ∃ vs', d' !! k = Some vs' ∧ v ∈ vs'.
Proof.
  induction stores as [|s rest IH]; intros d d' k vs v Hc Hk Hv; simpl in *.
  - simplify_eq. eauto.
  - destruct (as_pysaml2_mdstore_row settings s) as [w|msg]; [|done]. simpl in Hc.
    destruct (decide (group_key s w = k)) as [Heq|Hne].
    + apply (IH _ _ k (vs ++ [w])%list v Hc).
      * rewrite append_under_lookup, decide_True by done. subst k. by rewrite Hk.
      * apply elem_of_app. by left.
    + apply (IH _ _ k vs v Hc); [|done].
      by rewrite append_under_lookup, decide_False.
Qed.

(** Every selected row's descriptor is filed under its key. *)
Lemma collect_files_each (stores : list MetadataStore.t) :
  ∀ d d' s, collect settings d stores = Ok d' → s ∈ stores →
    ∃ v vs, as_pysaml2_mdstore_row settings s = Ok v
      ∧ d' !! group_key s v = Some vs ∧ v ∈ vs.
Proof.
  induction stores as [|x rest IH]; intros d d' s Hc Hin; simpl in *.
  - by apply elem_of_nil in Hin.
  - destruct (as_pysaml2_mdstore_row settings x) as [w|msg] eqn:Hx; [|done].
    simpl in Hc. apply elem_of_cons in Hin as [->|Hin].
    + destruct (collect_keeps rest _ _ (group_key x w)
                  (default [] (d !! group_key x w) ++ [w])%list w Hc) as (vs' & Hvs & Hw).
      * rewrite append_under_lookup. by rewrite decide_True.
      * apply elem_of_app. right. by left.
      * eauto.
    + by eapply IH.
Qed.

(** Every descriptor of the result was there before or is a selected row's,
    under that row's key. *)
Lemma collect_origin (stores : list MetadataStore.t) :
  ∀ d d' k vs v, collect settings d stores = Ok d' →
    d' !! k = Some vs → v ∈ vs →
    (∃ vs0, d !! k = Some vs0 ∧ v ∈ vs0)
    ∨ ∃ s, s ∈ stores ∧ as_pysaml2_mdstore_row settings s = Ok v ∧ group_key s v = k.
Proof.
  induction stores as [|x rest IH]; intros d d' k vs v Hc Hk Hv; simpl in *.
  - simplify_eq. left. eauto.
  - destruct (as_pysaml2_mdstore_row settings x) as [w|msg] eqn:Hx; [|done].
    simpl in Hc.
    destruct (IH _ _ _ _ _ Hc Hk Hv) as [(vs0 & Hvs0 & Hv0)|(s & Hs & Hrow & Hkey)].
    + rewrite append_under_lookup in Hvs0.
      destruct (decide (group_key x w = k)) as [Heq|Hne].
      * simplify_eq. apply elem_of_app in Hv0 as [Hold|Hnew].
        -- left. destruct (d !! group_key x w) as [l|]; simpl in Hold.
           ++ eauto.
           ++ by apply elem_of_nil in Hold.
        -- apply list_elem_of_singleton in Hnew as ->.
           right. exists x. split; [left|done].
      * left. eauto.
    + right. exists s. split; [by right|done].
Qed.

(** A key of the result holds at least one descriptor. *)
Lemma collect_nonempty (stores : list MetadataStore.t) :
  ∀ d d', (∀ k, d !! k ≠ Some []) →
    collect settings d stores = Ok d' → ∀ k, d' !! k ≠ Some [].
Proof.
  induction stores as [|x rest IH]; intros d d' Hd Hc k; simpl in *.
  - simplify_eq. apply Hd.
  - destruct (as_pysaml2_mdstore_row settings x) as [w|msg]; [|done].
    simpl in Hc. revert k. eapply IH; [|exact Hc]. intros k.
    rewrite append_under_lookup. destruct (decide (group_key x w = k)); [|apply Hd].
    intros [= Habs]. by apply app_nil in Habs as [_ ?].
Qed.

(** No key of the snapshot is [mdq]. *)
Lemma as_pysaml_mdstore_dict_never_mdq (objects : list MetadataStore.t)
    (d : gmap string (list (descriptor json))) :
  update_keeps_keys E →
  as_pysaml_mdstore_dict settings objects = Ok d → d !! "mdq" = None.
Proof.
  intros Hkeep Hd. unfold as_pysaml_mdstore_dict in Hd.
  destruct (d !! "mdq") as [[|v vs]|] eqn:Hq; [|exfalso|done].
  - exfalso. eapply collect_nonempty; [|exact Hd|exact Hq].
    intros k. by rewrite lookup_empty.
  - destruct (collect_origin _ _ _ "mdq" (v :: vs) v Hd Hq)
      as [(vs0 & H0 & _)|(s & _ & Hrow & Hkey)].
    + left.
    + by rewrite lookup_empty in H0.
    + by apply (group_key_never_mdq s v Hkeep Hrow).
Qed.

(** C9: a row with [is_valid] false or [is_active] false is left out of
    [as_pysaml_mdstore_dict] (the snapshot is the one of the table without
    it, an active but invalid row included), and every descriptor returned
    was built from a row with both flags true, filed under that row's
    key. *)
Theorem as_pysaml_mdstore_dict_gate (objects : list MetadataStore.t) :
  (∀ pre store post, objects = (pre ++ store :: post)%list →
     is_valid store = false ∨ is_active store = false →
     as_pysaml_mdstore_dict settings objects
     = as_pysaml_mdstore_dict settings (pre ++ post)%list)
  ∧ (∀ d k vs v, as_pysaml_mdstore_dict settings objects = Ok d →
       d !! k = Some vs → v ∈ vs →
       ∃ store, store ∈ objects
         ∧ is_active store = true ∧ is_valid store = true
         ∧ as_pysaml2_mdstore_row settings store = Ok v
         ∧ group_key store v = k).
Proof.
  split.
  - intros pre store post -> Hoff. unfold as_pysaml_mdstore_dict.
    rewrite !filter_app, filter_cons.
    rewrite decide_False; [done|].
    intros [Ha Hv]. destruct Hoff; congruence.
  - intros d k vs v Hd Hk Hv. unfold as_pysaml_mdstore_dict in Hd.
    destruct (collect_origin _ _ _ k vs v Hd Hk Hv) as [(vs0 & H0 & _)|(s & Hs & Hrow & Hkey)].
    + by rewrite lookup_empty in H0.
    + apply gated_elem in Hs as (Hin & Ha & Hval). exists s. eauto.
Qed.

End md_snapshot_facts.

(** The law assumed of [dict.update] holds in the closed world. *)
Lemma demo_update_keeps_keys : update_keeps_keys Demo.env.
Proof.
  intros d j d' k. simpl. unfold Demo.demo_dict_update. intros [= <-].
  revert d. induction j as [|[k' v] rest IH]; intros d Hk; simpl; [done|].
  apply IH. destruct (decide (k' = k)) as [->|Hne].
  - rewrite lookup_insert_eq. eauto.
  - by rewrite lookup_insert_ne.
Qed.

(** The theorem of C9 at a table of three rows, of which only the middle
    one has both flags: the snapshot is that of the middle row alone. *)
Lemma as_pysaml_mdstore_dict_gate_witness :
  let cfg := Demo.settings "django.core.files.storage.FileSystemStorage" None in
  let invalid := Demo.md_row "local" (Some "/srv/a") None "{}" false true in
  let both := Demo.md_row "local" (Some "/srv/b") None "{}" true true in
  let inactive := Demo.md_row "local" (Some "/srv/c") None "{}" true false in
  MetadataStore.as_pysaml_mdstore_dict (E:=Demo.env) cfg [invalid; both; inactive]
  = MetadataStore.as_pysaml_mdstore_dict (E:=Demo.env) cfg [both]
  ∧ MetadataStore.as_pysaml_mdstore_dict (E:=Demo.env) cfg [both]
    = Ok {[ "local" := [MetadataStore.Bare (Some "/srv/b")] ]}.
Proof.
  intros cfg invalid both inactive. split; [|reflexivity].
  destruct (as_pysaml_mdstore_dict_gate (E:=Demo.env) cfg [invalid; both; inactive]) as [Hout _].
  rewrite (Hout [] invalid [both; inactive] eq_refl (or_introl eq_refl)).
  destruct (as_pysaml_mdstore_dict_gate (E:=Demo.env) cfg [both; inactive]) as [Hout' _].
  exact (Hout' [both] inactive [] eq_refl (or_intror eq_refl)).
Defined.

(** C2, at a row the code files wrongly: a valid, active store of type
    [mdq]. Its descriptor is a dict with the key [url], like that of every
    [mdq] or [remote] store, so [as_pysaml_mdstore_dict] files it under
    [remote] and returns no [mdq] key, where the method's own docstring
    shows such a dict under [mdq]. *)
Theorem as_pysaml_mdstore_dict_files_mdq_under_remote :
  let cfg := Demo.settings "django.core.files.storage.FileSystemStorage" None in
  let mdq := Demo.md_row "mdq" (Some "https://mdq.example.org") None "{}" true true in
  ∃ d, MetadataStore.as_pysaml_mdstore_dict (E:=Demo.env) cfg [mdq] = Ok d
    ∧ d !! "mdq" = None
    ∧ d !! "remote"
      = Some [MetadataStore.Mapping {[ "url" := PStr "https://mdq.example.org" ]}].
Proof.
  eexists. split; [reflexivity|]. split; reflexivity.
Qed.

(** ** A snapshot is built as a whole *)

Section snapshot_whole_facts.
Context `{E : Env}.
Variable settings : Settings.

(** A key the dict holds is still held after the loop. *)
Lemma fill_keeps_key (entities : list ServiceProvider.t) (k : string) :
  ∀ d d', ServiceProvider.fill d entities = Ok d' → is_Some (d !! k) → is_Some (d' !! k).
Proof.
  induction entities as [|x rest IH]; intros d d' Hfill Hk; simpl in *.
  - by simplify_eq.
  - destruct (ServiceProvider.as_idpspconfig_dict_element x) as [c|msg]; [|done].
    simpl in Hfill. apply (IH _ _ Hfill).
    destruct (decide (ServiceProvider.entity_id x = k)) as [->|Hne].
    + rewrite lookup_insert_eq. eauto.
    + by rewrite lookup_insert_ne.
Qed.

(** Every row the loop went through has its key in the result. *)
Lemma fill_has_key (entities : list ServiceProvider.t) :
  ∀ d d' e, ServiceProvider.fill d entities = Ok d' → e ∈ entities →
    is_Some (d' !! ServiceProvider.entity_id e).
Proof.
  induction entities as [|x rest IH]; intros d d' e Hfill Hin; simpl in *.
  - by apply elem_of_nil in Hin.
  - destruct (ServiceProvider.as_idpspconfig_dict_element x) as [c|msg]; [|done].
    simpl in Hfill. apply elem_of_cons in Hin as [->|Hin].
    + apply (fill_keeps_key rest _ _ _ Hfill). rewrite lookup_insert_eq. eauto.
    + by eapply IH.
Qed.

(** The loop raises the exception of the first row whose projection
    raises. *)
Lemma fill_raises_first (pre post : list ServiceProvider.t) (e : ServiceProvider.t)
    (msg : string) :
  (∀ x, x ∈ pre → is_ok (ServiceProvider.as_idpspconfig_dict_element x) = true) →
  ServiceProvider.as_idpspconfig_dict_element e = Raise msg →
  ∀ d, ServiceProvider.fill d (pre ++ e :: post) = Raise msg.
Proof.
  induction pre as [|x rest IH]; intros Hpre He d; simpl.
  - by rewrite He.
  - destruct (ServiceProvider.as_idpspconfig_dict_element x) as [c|m] eqn:Hx.
    + simpl. apply IH; [|done]. intros y Hy. apply Hpre. by right.
    + specialize (Hpre x ltac:(left)). by rewrite Hx in Hpre.
Qed.

Lemma collect_raises_first (pre post : list MetadataStore.t) (s : MetadataStore.t)
    (msg : string) :
  (∀ x, x ∈ pre → is_ok (MetadataStore.as_pysaml2_mdstore_row settings x) = true) →
  MetadataStore.as_pysaml2_mdstore_row settings s = Raise msg →
  ∀ d, MetadataStore.collect settings d (pre ++ s :: post) = Raise msg.
Proof.
  induction pre as [|x rest IH]; intros Hpre Hs d; simpl.
  - by rewrite Hs.
  - destruct (MetadataStore.as_pysaml2_mdstore_row settings x) as [v|m] eqn:Hx.
    + simpl. apply IH; [|done]. intros y Hy. apply Hpre. by right.
    + specialize (Hpre x ltac:(left)). by rewrite Hx in Hpre.
Qed.

(** C3, as the code has it: neither snapshot isolates a failure. When the
    projection of one active service provider raises, so does
    [as_idpspconfig_dict], and when the descriptor of one active and valid
    store raises, so does [as_pysaml_mdstore_dict]: no row is returned. The
    exception raised is that of the first selected row, in the order the
    rows are gone through, whose projection or descriptor raises. Only when
    every selected row builds does the snapshot hold every selected row.
    Rows outside the selection are never built, so they cannot make the
    call raise. *)
Theorem snapshot_raises_or_holds_every_row :
  (∀ objects : list ServiceProvider.t,
     (∀ e, e ∈ objects → ServiceProvider.is_active e = true →
        is_ok (ServiceProvider.as_idpspconfig_dict_element e) = false →
        is_ok (ServiceProvider.as_idpspconfig_dict objects) = false)
     ∧ (∀ pre e post msg,
          filter (λ entity, ServiceProvider.is_active entity = true) objects
          = (pre ++ e :: post)%list →
          (∀ x, x ∈ pre → is_ok (ServiceProvider.as_idpspconfig_dict_element x) = true) →
          ServiceProvider.as_idpspconfig_dict_element e = Raise msg →
          ServiceProvider.as_idpspconfig_dict objects = Raise msg)
     ∧ ((∀ e, e ∈ objects → ServiceProvider.is_active e = true →
           is_ok (ServiceProvider.as_idpspconfig_dict_element e) = true) →
        ∃ d, ServiceProvider.as_idpspconfig_dict objects = Ok d
          ∧ ∀ e, e ∈ objects → ServiceProvider.is_active e = true →
              is_Some (d !! ServiceProvider.entity_id e)))
  ∧ (∀ objects : list MetadataStore.t,
       (∀ s, s ∈ objects →
          MetadataStore.is_active s = true → MetadataStore.is_valid s = true →
          is_ok (MetadataStore.as_pysaml2_mdstore_row settings s) = false →
          is_ok (MetadataStore.as_pysaml_mdstore_dict settings objects) = false)
       ∧ (∀ pre s post msg,
            filter (λ store, MetadataStore.is_active store = true
                             ∧ MetadataStore.is_valid store = true) objects
            = (pre ++ s :: post)%list →
            (∀ x, x ∈ pre →
               is_ok (MetadataStore.as_pysaml2_mdstore_row settings x) = true) →
            MetadataStore.as_pysaml2_mdstore_row settings s = Raise msg →
            MetadataStore.as_pysaml_mdstore_dict settings objects = Raise msg)
       ∧ ((∀ s, s ∈ objects →
             MetadataStore.is_active s = true → MetadataStore.is_valid s = true →
             is_ok (MetadataStore.as_pysaml2_mdstore_row settings s) = true) →
          ∃ d, MetadataStore.as_pysaml_mdstore_dict settings objects = Ok d
            ∧ ∀ s, s ∈ objects →
                MetadataStore.is_active s = true → MetadataStore.is_valid s = true →
                ∃ v vs, MetadataStore.as_pysaml2_mdstore_row settings s = Ok v
                  ∧ d !! MetadataStore.group_key s v = Some vs ∧ v ∈ vs)).
Proof.
  split; intros objects; (split; [|split]).
  - intros e Hin Hon Hbad. unfold ServiceProvider.as_idpspconfig_dict.
    apply (fill_raises _ e); [|done]. by apply active_elem.
  - intros pre e post msg Hsel Hpre He. unfold ServiceProvider.as_idpspconfig_dict.
    rewrite Hsel. by apply fill_raises_first.
  - intros Hall. unfold ServiceProvider.as_idpspconfig_dict. fold (active objects).
    destruct (fill_returns (active objects))
      with (d := (∅ : gmap string (ServiceProvider.SPConfig json))) as [d Hd].
    { intros e He. apply active_elem in He as [Hin Hon]. by apply Hall. }
    exists d. split; [done|]. intros e Hin Hon.
    apply (fill_has_key _ _ _ e Hd). by apply active_elem.
  - intros s Hin Hon Hval Hbad. unfold MetadataStore.as_pysaml_mdstore_dict.
    apply (collect_raises settings _ s); [|done]. by apply gated_elem.
  - intros pre s post msg Hsel Hpre Hs. unfold MetadataStore.as_pysaml_mdstore_dict.
    rewrite Hsel. by apply collect_raises_first.
  - intros Hall. unfold MetadataStore.as_pysaml_mdstore_dict. fold (gated objects).
    destruct (collect_returns settings (gated objects))
      with (d := (∅ : gmap string (list (MetadataStore.descriptor json)))) as [d Hd].
    { intros s Hs. apply gated_elem in Hs as (Hin & Hon & Hval). by apply Hall. }
    exists d. split; [done|]. intros s Hin Hon Hval.
    apply (collect_files_each settings _ _ _ s Hd). by apply gated_elem.
Qed.

End snapshot_whole_facts.

(** C3 as stated fails: of two active service providers, the first with a
    mapping that is not JSON, the second in order; and of two active, valid
    stores, the first with [kwargs] that are not JSON, the second in order.
    Each second row builds, and neither snapshot includes it: both calls
    raise the first row's exception. *)
Lemma snapshot_aborted_by_one_row :
  let cfg := Demo.settings "django.core.files.storage.FileSystemStorage" None in
  let bad := Demo.sp_row "https://a.example.org" DEFAULT_PROCESSOR (Some "oops") true true in
  let good := Demo.sp_row "https://b.example.org" DEFAULT_PROCESSOR (Some "{}") true true in
  let bad_store := Demo.md_row "remote" (Some "https://md.example.org/metadata") None "oops" true true in
  let good_store := Demo.md_row "local" (Some "/srv/metadata") None "{}" true true in
  (is_ok (ServiceProvider.as_idpspconfig_dict_element (E:=Demo.env) good) = true
   ∧ ServiceProvider.as_idpspconfig_dict (E:=Demo.env) [bad; good]
     = Raise "Expecting value: line 1 column 1 (char 0)")
  ∧ (MetadataStore.as_pysaml2_mdstore_row (E:=Demo.env) cfg good_store
     = Ok (MetadataStore.Bare (Some "/srv/metadata"))
     ∧ MetadataStore.as_pysaml_mdstore_dict (E:=Demo.env) cfg [bad_store; good_store]
       = Raise "Expecting value: line 1 column 1 (char 0)").
Proof. repeat split; reflexivity. Qed.

(** ** Persistent identifiers *)

Section persistent_id_facts.
Import PersistentId.

(** Rows of a list that agree on a projection without repetition are the
    same row. *)
Lemma nodup_fmap_agree {A B} (f : A → B) (l : list A) (x y : A) :
  NoDup (f <$> l) → x ∈ l → y ∈ l → f x = f y → x = y.
Proof.
  intros Hnd Hx Hy Hf.
  apply list_elem_of_lookup in Hx as [i Hi].
  apply list_elem_of_lookup in Hy as [j Hj].
  assert (i = j); [|congruence].
  eapply NoDup_lookup; [exact Hnd| |].
  - rewrite list_lookup_fmap, Hi. reflexivity.
  - rewrite list_lookup_fmap, Hj. simpl. by rewrite Hf.
Qed.

Lemma lookup_found (u s : nat) (table : list PersistentId.t) (row : PersistentId.t) :
  lookup u s table = Some row → row ∈ table ∧ sp row = s ∧ user row = u.
Proof.
  unfold lookup. destruct (list_find _ table) as [[i r]|] eqn:Hf; [|done].
  intros [= <-]. apply list_find_Some in Hf as (Hi & [Hs Hu] & _).
  split; [|done]. apply list_elem_of_lookup. eauto.
Qed.

Lemma lookup_missing (u s : nat) (table : list PersistentId.t) :
  lookup u s table = None → (s, u) ∉ sp_user <$> table.
Proof.
  unfold lookup. destruct (list_find _ table) as [[i r]|] eqn:Hf; [done|].
  intros _ Hin. apply list_find_None in Hf.
  apply list_elem_of_fmap in Hin as (r & Hr & Hin).
  rewrite Forall_forall in Hf. apply (Hf r Hin).
  unfold sp_user in Hr. by simplify_eq.
Qed.

(** Under the constraints the row of a pair is the one [lookup] finds. *)
Lemma lookup_the_row (table : list PersistentId.t) (row : PersistentId.t) :
  constraints_hold table → row ∈ table →
  lookup (user row) (sp row) table = Some row.
Proof.
  intros [_ Hu] Hin.
  destruct (lookup (user row) (sp row) table) as [r|] eqn:Hl.
  - apply lookup_found in Hl as (Hr & Hs & Hus). f_equal.
    apply (nodup_fmap_agree sp_user table); [done..|].
    unfold sp_user. by rewrite Hs, Hus.
  - apply lookup_missing in Hl. exfalso. apply Hl.
    apply list_elem_of_fmap. by exists row.
Qed.

(** The database keeps the constraints: an accepted row is appended and
    breaks neither. *)
Lemma insert_accepted (row : PersistentId.t) (table table' : list PersistentId.t) :
  insert row table = Ok table' →
  table' = (table ++ [row])%list
  ∧ (constraints_hold table → constraints_hold table').
Proof.
  unfold insert, violates.
  destruct (bool_decide (sp_id row ∈ sp_id <$> table)) eqn:Hi; [done|].
  destruct (bool_decide (sp_user row ∈ sp_user <$> table)) eqn:Hu; [done|].
  simpl. intros [= <-]. split; [done|].
  apply bool_decide_eq_false in Hi, Hu.
  intros [Hids Husers]. split; rewrite fmap_app; apply NoDup_app; simpl.
  - split; [done|]. split; [|apply NoDup_singleton].
    intros x Hx Hrow. apply list_elem_of_singleton in Hrow as ->. done.
  - split; [done|]. split; [|apply NoDup_singleton].
    intros x Hx Hrow. apply list_elem_of_singleton in Hrow as ->. done.
Qed.

Lemma insert_fresh (row : PersistentId.t) (table : list PersistentId.t) :
  sp_id row ∉ sp_id <$> table → sp_user row ∉ sp_user <$> table →
  insert row table = Ok (table ++ [row])%list.
Proof.
  intros Hi Hu. unfold insert, violates.
  by rewrite !bool_decide_eq_false_2.
Qed.

(** The retry loop either appends one row for the pair, holding the value
    it returns, or leaves the table alone and reports the storage error. *)
Lemma allocate_outcome (now : Z) (u s : nat) (draws : list N) (table : list PersistentId.t) :
  match allocate now u s draws table with
  | (Ok v, table') =>
      table' = (table ++ [{| user := u; sp := s; persistent_id := v; created := now |}])%list
      ∧ (constraints_hold table → constraints_hold table')
  | (Raise _, table') => table' = table
  end.
Proof.
  induction draws as [|v rest IH]; simpl; [done|].
  destruct (insert _ table) as [table'|msg] eqn:Hins; [|exact IH].
  by apply insert_accepted in Hins.
Qed.

(** What a call leaves: the constraints, every earlier row, and, when it
    returns a value, a row for the pair that holds it. *)
Lemma getOrCreate_outcome (attempts : nat) (now : Z) (draws : list N) (u s : nat)
    (table table' : list PersistentId.t) (res : result N) :
  constraints_hold table →
  getOrCreate attempts now draws u s table = (res, table') →
  constraints_hold table'
  ∧ (∀ row, row ∈ table → row ∈ table')
  ∧ ∀ id, res = Ok id →
      ∃ row, row ∈ table' ∧ user row = u ∧ sp row = s ∧ persistent_id row = id.
Proof.
  intros Hc. unfold getOrCreate.
  destruct (lookup u s table) as [row|] eqn:Hl.
  - intros [= <- <-]. split; [done|]. split; [done|].
    intros id [= <-]. apply lookup_found in Hl as (Hin & Hs & Hu). eauto.
  - pose proof (allocate_outcome now u s (take attempts draws) table) as Hout.
    destruct (allocate now u s (take attempts draws) table) as [[v|msg] t'].
    + destruct Hout as [-> Hkeep]. intros [= <- <-].
      split; [by apply Hkeep|]. split.
      * intros row Hrow. apply elem_of_app. by left.
      * intros id [= <-]. eexists. split; [apply elem_of_app; right; left|done].
    + subst t'. intros [= <- <-]. split; [done|]. split; [done|]. done.
Qed.

(** C6: in a table that satisfies the two unique constraints, a user has
    at most one row per SP and two rows of one SP with the same identifier
    are of the same user; [getOrCreate] keeps the constraints and every
    earlier row, answers every later call for the same pair with the same
    identifier without touching the table, and never gives that identifier
    to another user at the same SP. A first call for a new pair whose first
    draw is unused at the SP returns that draw. *)
Theorem getOrCreate_stable_and_distinct (attempts : nat) (now : Z) (draws : list N)
    (u s : nat) (table table' : list PersistentId.t) (res : result N) :
  constraints_hold table →
  getOrCreate attempts now draws u s table = (res, table') →
  (∀ r1 r2, r1 ∈ table' → r2 ∈ table' → sp r1 = sp r2 →
     (user r1 = user r2 → r1 = r2)
     ∧ (persistent_id r1 = persistent_id r2 → user r1 = user r2))
  ∧ (∀ row, row ∈ table → row ∈ table')
  ∧ (∀ id later, res = Ok id →
       constraints_hold later → (∀ row, row ∈ table' → row ∈ later) →
       (∀ attempts2 now2 draws2,
          getOrCreate attempts2 now2 draws2 u s later = (Ok id, later))
       ∧ (∀ attempts2 now2 draws2 u2 id2 table2, u2 ≠ u →
            getOrCreate attempts2 now2 draws2 u2 s later = (Ok id2, table2) →
            id2 ≠ id))
  ∧ (∀ v rest, lookup u s table = None → (s, v) ∉ sp_id <$> table →
       draws = v :: rest → attempts ≠ 0 →
       res = Ok v
       ∧ table' = (table ++ [{| user := u; sp := s; persistent_id := v;
                                created := now |}])%list).
Proof.
  intros Hc Hcall.
  destruct (getOrCreate_outcome _ _ _ _ _ _ _ _ Hc Hcall) as (Hc' & Hkeep & Hrow).
  split; [|split; [exact Hkeep|split]].
  - intros r1 r2 H1 H2 Hsp. destruct Hc' as [Hids Husers]. split; intros Heq.
    + apply (nodup_fmap_agree sp_user table'); [done..|].
      unfold sp_user. by rewrite Hsp, Heq.
    + assert (r1 = r2) as ->; [|done].
      apply (nodup_fmap_agree sp_id table'); [done..|].
      unfold sp_id. by rewrite Hsp, Heq.
  - intros id later Hid Hlater Hsub.
    destruct (Hrow id Hid) as (row & Hin & Hu & Hs & Hp).
    apply Hsub in Hin. split.
    + intros attempts2 now2 draws2. unfold getOrCreate.
      pose proof (lookup_the_row later row Hlater Hin) as Hl.
      rewrite Hu, Hs in Hl. rewrite Hl. by rewrite Hp.
    + intros attempts2 now2 draws2 u2 id2 table2 Hne Hcall2 Hsame.
      destruct (getOrCreate_outcome _ _ _ _ _ _ _ _ Hlater Hcall2) as (Hc2 & Hkeep2 & Hrow2).
      destruct (Hrow2 id2 eq_refl) as (row2 & Hin2 & Hu2 & Hs2 & Hp2).
      apply Hne. rewrite <- Hu, <- Hu2. f_equal.
      apply (nodup_fmap_agree sp_id table2); [apply Hc2|done|by apply Hkeep2|].
      unfold sp_id. by rewrite Hs, Hs2, Hp, Hp2, Hsame.
  - intros v rest Hl Hfresh -> Hatt. unfold getOrCreate in Hcall. rewrite Hl in Hcall.
    destruct attempts as [|n]; [done|]. simpl in Hcall.
    rewrite insert_fresh in Hcall.
    + by simplify_eq.
    + done.
    + by apply lookup_missing.
Qed.

End persistent_id_facts.

(** The theorem of C6 at an empty table: the first call for user 1 at SP 7
    draws 42 and stores it; a second call, whatever it would draw, returns
    42 again, and a call for user 2 returns its own draw. *)
Lemma getOrCreate_stable_and_distinct_witness :
  let row := {| PersistentId.user := 1; PersistentId.sp := 7;
                PersistentId.persistent_id := 42%N; PersistentId.created := 0 |} in
  PersistentId.constraints_hold []
  ∧ PersistentId.getOrCreate 3 0 [42%N] 1 7 [] = (Ok 42%N, [row])
  ∧ PersistentId.getOrCreate 3 5 [99%N] 1 7 [row] = (Ok 42%N, [row])
  ∧ (PersistentId.getOrCreate 3 5 [42%N; 43%N] 2 7 [row]).1 ≠ Ok 42%N.
Proof.
  intros row.
  assert (H0 : PersistentId.constraints_hold []) by (split; constructor).
  assert (H1 : PersistentId.getOrCreate 3 0 [42%N] 1 7 [] = (Ok 42%N, [row]))
    by reflexivity.
  destruct (getOrCreate_stable_and_distinct 3 0 [42%N] 1 7 [] [row] (Ok 42%N) H0 H1)
    as (_ & _ & Hlater & _).
  assert (H2 : PersistentId.constraints_hold [row]) by (split; apply NoDup_singleton).
  destruct (Hlater 42%N [row] eq_refl H2 (λ _ H, H)) as [Hsame Hother].
  split; [exact H0|]. split; [exact H1|]. split; [apply Hsame|].
  destruct (PersistentId.getOrCreate 3 5 [42%N; 43%N] 2 7 [row]) as [[id2|msg] table2] eqn:Hcall;
    simpl; [|done].
  intros [= ->]. by apply (Hother 3 5%Z [42%N; 43%N] 2 42%N table2).
Defined.

(** * Further properties *)

(** ** Validation of a metadata store, continued *)

Section md_validate_more.
Import MetadataStore.
Context `{E : Env}.

(** Splits [validate] along the outcome of every check it makes. *)
Ltac validate_cases :=
  unfold validate;
  repeat match goal with
         | |- context [bool_decide ?P] => destruct (bool_decide P) eqn:?; simpl
         | |- context [match ?r with Ok _ => _ | Raise _ => _ end] =>
             destruct r eqn:?; simpl
         | |- context [if ?b then _ else _] => destruct b eqn:?; simpl
         end.

(** X1: How a call of [validate] ends. When it raises, the message is not
    empty and the store is left with [is_valid] and [is_active] both
    false. When it returns, it returns [True] and [is_valid] is true. In
    both cases [is_active] is never switched on, [updated] takes the time
    of the save and no other column is written. *)
Theorem validate_md_outcome (now : Z) (self : MetadataStore.t) :
  let '(self', outcome) := validate now self in
  match outcome with
  | Raise msg =>
      str_truthy msg = true ∧ is_valid self' = false ∧ is_active self' = false
  | Ok returned => returned = true ∧ is_valid self' = true
  end
  ∧ (is_active self' = true → is_active self = true)
  ∧ self' = save now (set_is_valid (is_valid self') (set_is_active (is_active self') self)).
Proof.
  validate_cases; repeat split; try done; destruct self; simpl in *; congruence.
Qed.

(** [validate] writes [is_valid], [is_active] and [updated] only. *)
Lemma validate_md_frame (now : Z) (self : MetadataStore.t) :
  (validate now self).1
  = save now (set_is_valid (is_valid (validate now self).1)
                (set_is_active (is_active (validate now self).1) self)).
Proof. validate_cases; destruct self; reflexivity. Qed.

(** X2: For a store whose validation reads no stored file (its type is not
    [local], or it has no file), a second run of [validate] on the object
    the first run left, in the same environment, leaves the pair
    [(is_valid, is_active)] the first run left: the checks read columns
    that [validate] does not write. A local store with a file is left out:
    the first run reads the file's stream to its end, and what a second
    [read()] on the same object returns is not what the first returned. *)
Theorem validate_md_idempotent (now1 now2 : Z) (self : MetadataStore.t) :
  type self ≠ "local" ∨ truthy (file self) = false →
  let once := (validate now1 self).1 in
  let twice := (validate now2 once).1 in
  (is_valid twice, is_active twice) = (is_valid once, is_active once).
Proof.
  intros _ once twice. subst twice once.
  rewrite (validate_md_frame now1 self) at 1 2.
  unfold validate, check_mdq, check_remote, check_local, entities_url, file_read.
  simpl.
  repeat match goal with
         | |- context [bool_decide ?P] => destruct (bool_decide P) eqn:?; simpl
         | |- context [match ?r with Ok _ => _ | Raise _ => _ end] =>
             destruct r eqn:?; simpl
         | |- context [if ?b then _ else _] => destruct b eqn:?; simpl
         | |- context [match ?r with Some _ => _ | None => _ end] =>
             destruct r eqn:?; simpl
         end; try done.
Qed.

(** X5: A store of type [local] with neither a url nor a file: [validate]
    raises and leaves the store inactive and invalid, even one that was
    active and valid. The message is the one about the empty source, unless
    [kwargs] do not parse either, whose message then replaces it. *)
Theorem validate_md_empty_local (now : Z) (self : MetadataStore.t) :
  type self = "local" → truthy (url self) = false → truthy (file self) = false →
  ∃ self',
    validate now self
    = (self', Raise match json_loads (kwargs self) with
                    | Ok _ => EMPTY_LOCAL_MSG
                    | Raise e => "kwargs JSON format error: " +:+ e
                    end)
    ∧ is_valid self' = false ∧ is_active self' = false.
Proof.
  intros Hty Hu Hf. unfold validate. rewrite Hty. simpl.
  destruct (check_local self); simpl; rewrite Hu, Hf; simpl;
    destruct (json_loads (kwargs self)); simpl; eauto.
Qed.

(** X6: [kwargs] that do not parse: whatever the type of the store and the
    outcome of the other checks, [validate] raises the [kwargs] message and
    leaves the store inactive and invalid. *)
Theorem validate_md_kwargs_error_wins (now : Z) (self : MetadataStore.t) (e : string) :
  json_loads (kwargs self) = Raise e →
  ∃ self',
    validate now self = (self', Raise ("kwargs JSON format error: " +:+ e))
    ∧ is_valid self' = false ∧ is_active self' = false.
Proof.
  intros Hkw. validate_cases; simplify_eq; eauto.
Qed.

Lemma for_each_ok_iff {A} (body : A → result unit) (l : list A) :
  for_each body l = Ok tt ↔ ∀ x, x ∈ l → body x = Ok tt.
Proof.
  induction l as [|x rest IH]; simpl.
  - split; [|done]. intros _ x Hx. by apply elem_of_nil in Hx.
  - destruct (body x) as [[]|msg] eqn:Hx; simpl.
    + rewrite IH. split.
      * intros Hrest y Hy. apply elem_of_cons in Hy as [->|Hy]; auto.
      * intros Hall y Hy. apply Hall. by right.
    + split; [done|]. intros Hall. specialize (Hall x ltac:(left)).
      by rewrite Hx in Hall.
Qed.

(** The [try] block for a local store passes exactly when the file, if
    there is one, is read and parses, and the directory, if there is one,
    is listed and each of its entries is read and parses. *)
Lemma check_local_ok_iff (self : MetadataStore.t) :
  check_local self = Ok tt
  ↔ (truthy (file self) = true →
       ∃ content, storage_read (default "" (file self)) = Ok content
                  ∧ xml_fromstring content = Ok tt)
    ∧ (truthy (url self) = true →
       ∃ names, os_listdir (default "" (url self)) = Ok names
         ∧ ∀ n, n ∈ names →
             ∃ content, open_read (os_path_join (default "" (url self)) n) = Ok content
                        ∧ xml_fromstring content = Ok tt).
Proof.
  unfold check_local, file_read.
  destruct (truthy (file self)) eqn:Hf; simpl.
  - destruct (storage_read (default "" (file self))) as [content|msg]; simpl.
    + destruct (xml_fromstring content) as [[]|msg] eqn:Hx; simpl.
      * destruct (truthy (url self)) eqn:Hu; simpl.
        -- destruct (os_listdir (default "" (url self))) as [names|msg]; simpl.
           ++ rewrite for_each_ok_iff. split.
              ** intros Hall. split; [eauto|]. intros _. exists names. split; [done|].
                 intros n Hn.
                 specialize (Hall (os_path_join (default "" (url self)) n)
                                  ltac:(apply list_elem_of_fmap; eauto)).
                 simpl in Hall.
                 destruct (open_read _) as [c|]; simpl in Hall; [eauto|done].
              ** intros [_ Hdir] f Hf'. destruct (Hdir eq_refl) as (names' & [= <-] & Hall).
                 apply list_elem_of_fmap in Hf' as (n & -> & Hn).
                 destruct (Hall n Hn) as (c & Hc & Hxc). by rewrite Hc.
           ++ split; [done|]. intros [_ Hdir].
              by destruct (Hdir eq_refl) as (names & ? & _).
        -- split; [|done]. intros _. split; [eauto|done].
      * split; [done|]. intros [Hfile _].
        destruct (Hfile eq_refl) as (c & [= <-] & Hc). by rewrite Hx in Hc.
    + split; [done|]. intros [Hfile _]. by destruct (Hfile eq_refl) as (c & ? & _).
  - destruct (truthy (url self)) eqn:Hu; simpl.
    + destruct (os_listdir (default "" (url self))) as [names|msg]; simpl.
      * rewrite for_each_ok_iff. split.
        -- intros Hall. split; [done|]. intros _. exists names. split; [done|].
           intros n Hn.
           specialize (Hall (os_path_join (default "" (url self)) n)
                            ltac:(apply list_elem_of_fmap; eauto)).
           simpl in Hall.
           destruct (open_read _) as [c|]; simpl in Hall; [eauto|done].
        -- intros [_ Hdir] f Hf'. destruct (Hdir eq_refl) as (names' & [= <-] & Hall).
           apply list_elem_of_fmap in Hf' as (n & -> & Hn).
           destruct (Hall n Hn) as (c & Hc & Hxc). by rewrite Hc.
      * split; [done|]. intros [_ Hdir].
        by destruct (Hdir eq_refl) as (names & ? & _).
    + split; [|done]. intros _. split; done.
Qed.

(** X4: A store of type [local] validates exactly when it has a url or a
    file, its file (if any) is read and parses as XML, its directory (if
    any) is listed and every entry of it is read and parses, and [kwargs]
    parse; [is_active] is then left as it was. An empty directory passes. *)
Theorem validate_md_local_returns_iff (now : Z) (self : MetadataStore.t) :
  type self = "local" →
  (is_ok (validate now self).2 = true
   ↔ (truthy (url self) || truthy (file self) = true)
     ∧ (truthy (file self) = true →
          ∃ content, storage_read (default "" (file self)) = Ok content
                     ∧ xml_fromstring content = Ok tt)
     ∧ (truthy (url self) = true →
          ∃ names, os_listdir (default "" (url self)) = Ok names
            ∧ ∀ n, n ∈ names →
                ∃ content, open_read (os_path_join (default "" (url self)) n) = Ok content
                           ∧ xml_fromstring content = Ok tt)
     ∧ is_ok (json_loads (kwargs self)) = true)
  ∧ (is_ok (validate now self).2 = true →
     is_active (validate now self).1 = is_active self).
Proof.
  intros Hty.
  assert (Hlocal : is_ok (validate now self).2 = true
                   ↔ (truthy (url self) || truthy (file self) = true)
                     ∧ check_local self = Ok tt
                     ∧ is_ok (json_loads (kwargs self)) = true).
  { unfold validate. rewrite Hty. simpl.
    destruct (check_local self) as [[]|msg]; simpl;
      destruct (truthy (url self) || truthy (file self)); simpl;
      destruct (json_loads (kwargs self)); simpl; intuition congruence. }
  split.
  - rewrite Hlocal, check_local_ok_iff. tauto.
  - unfold validate. rewrite Hty. simpl.
    destruct (check_local self) as [[]|msg]; simpl;
      destruct (truthy (url self) || truthy (file self)); simpl;
      destruct (json_loads (kwargs self)); simpl; done.
Qed.

(** [validate] never switches [is_active] on. *)
Lemma validate_md_keeps_off (now : Z) (self : MetadataStore.t) :
  is_active (validate now self).1 = true → is_active self = true.
Proof. validate_cases; done. Qed.

(** X3: A store of type [mdq] or [remote] validates exactly when the request
    is answered, with whatever status, and [kwargs] parse; it is still
    active afterwards exactly when it was active, the status is 200 and
    [kwargs] parse. An answer other than 200 thus leaves the store valid
    and switched off. *)
Theorem validate_md_endpoint_returns_iff (now : Z) (self : MetadataStore.t) :
  type self = "mdq" ∨ type self = "remote" →
  (is_ok (validate now self).2 = true
   ↔ is_ok (endpoint_check self) = true ∧ is_ok (json_loads (kwargs self)) = true)
  ∧ (is_active (validate now self).1 = true
     ↔ is_active self = true ∧ endpoint_check self = Ok 200%Z
       ∧ is_ok (json_loads (kwargs self)) = true)
  ∧ (is_ok (validate now self).2 = true → is_valid (validate now self).1 = true).
Proof.
  intros Hty. unfold endpoint_check, validate.
  destruct (decide (type self = "mdq")) as [Hq|Hq].
  - rewrite !bool_decide_eq_true_2 by done.
    destruct (check_mdq self) as [status|e]; simpl;
      [destruct (decide (status = 200%Z)) as [->|Hst];
       [rewrite bool_decide_eq_false_2 by (intros H; by apply H)
       |rewrite (bool_decide_eq_true_2 _ Hst)]|];
      simpl; destruct (json_loads (kwargs self)); simpl;
      repeat split; try done; try (intros (? & ? & ?)); try (intros (? & ?));
      simplify_eq; done.
  - destruct Hty as [?|Hr]; [done|].
    rewrite !(bool_decide_eq_false_2 _ Hq), !(bool_decide_eq_true_2 _ Hr).
    destruct (check_remote self) as [status|e]; simpl;
      [destruct (decide (status = 200%Z)) as [->|Hst];
       [rewrite bool_decide_eq_false_2 by (intros H; by apply H)
       |rewrite (bool_decide_eq_true_2 _ Hst)]|];
      simpl; destruct (json_loads (kwargs self)); simpl;
      repeat split; try done; try (intros (? & ? & ?)); try (intros (? & ?));
      simplify_eq; done.
Qed.

End md_validate_more.

(** [validate_md_empty_local] at a local store that was active and valid
    and has lost both its url and its file. *)
Lemma validate_md_empty_local_witness :
  let self := Demo.md_row "local" None (Some "") "{}" true true in
  let after := MetadataStore.validate (E:=Demo.env) 1 self in
  after.2 = Raise MetadataStore.EMPTY_LOCAL_MSG
  ∧ MetadataStore.is_valid after.1 = false ∧ MetadataStore.is_active after.1 = false.
Proof.
  intros self after. subst after.
  destruct (validate_md_empty_local (E:=Demo.env) 1 self eq_refl eq_refl eq_refl)
    as (self' & Heq & Hv & Ha).
  rewrite Heq. split; [reflexivity|]. split; assumption.
Defined.

(** [validate_md_kwargs_error_wins] at a remote store whose url answers 200
    and whose [kwargs] are not JSON. *)
Lemma validate_md_kwargs_error_wins_witness :
  let self := Demo.md_row "remote" (Some "https://md.example.org/metadata") None "oops" true true in
  let after := MetadataStore.validate (E:=Demo.env) 1 self in
  requests_get (Env:=Demo.env) (MetadataStore.url self) = Ok 200%Z
  ∧ after.2 = Raise "kwargs JSON format error: Expecting value: line 1 column 1 (char 0)"
  ∧ MetadataStore.is_valid after.1 = false ∧ MetadataStore.is_active after.1 = false.
Proof.
  intros self after. subst after. split; [reflexivity|].
  destruct (validate_md_kwargs_error_wins (E:=Demo.env) 1 self
              "Expecting value: line 1 column 1 (char 0)" eq_refl)
    as (self' & Heq & Hv & Ha).
  rewrite Heq. split; [reflexivity|]. split; assumption.
Defined.

(** [validate_md_local_returns_iff] at a local store with a stored file that
    parses and a directory that is empty. *)
Lemma validate_md_local_returns_iff_witness :
  let self := Demo.md_row "local" (Some "/srv/metadata") (Some "sp.xml") "{}" false true in
  let after := MetadataStore.validate (E:=Demo.env) 1 self in
  MetadataStore.type self = "local"
  ∧ is_ok after.2 = true ∧ MetadataStore.is_active after.1 = true.
Proof.
  intros self after. subst after. split; [reflexivity|].
  destruct (validate_md_local_returns_iff (E:=Demo.env) 1 self eq_refl) as [Hiff Hkeep].
  assert (Hok : is_ok (MetadataStore.validate (E:=Demo.env) 1 self).2 = true).
  { apply Hiff. split; [reflexivity|]. split; [|split; [|reflexivity]].
    - intros _. exists "<md/>". split; reflexivity.
    - intros _. exists []. split; [reflexivity|]. intros n Hn.
      by apply elem_of_nil in Hn. }
  split; [exact Hok|]. rewrite (Hkeep Hok). reflexivity.
Defined.

(** [validate_md_idempotent] at a remote store whose url answers 404, and
    at a local store with a directory and no file. *)
Lemma validate_md_idempotent_witness :
  let remote := Demo.md_row "remote" (Some "https://md.example.org/gone") None "{}" false true in
  let dir := Demo.md_row "local" (Some "/srv/metadata") None "{}" false true in
  let once self := (MetadataStore.validate (E:=Demo.env) 1 self).1 in
  let twice self := (MetadataStore.validate (E:=Demo.env) 2 (once self)).1 in
  (MetadataStore.type remote ≠ "local" ∧ truthy (MetadataStore.file dir) = false)
  ∧ (MetadataStore.is_valid (twice remote), MetadataStore.is_active (twice remote))
    = (true, false)
  ∧ (MetadataStore.is_valid (twice dir), MetadataStore.is_active (twice dir))
    = (true, true).
Proof.
  intros remote dir once twice.
  assert (Hremote : MetadataStore.type remote ≠ "local") by discriminate.
  split; [split; [exact Hremote|reflexivity]|]. split.
  - exact (eq_trans (validate_md_idempotent (E:=Demo.env) 1 2 remote (or_introl Hremote))
             (eq_refl : (MetadataStore.is_valid (once remote),
                         MetadataStore.is_active (once remote)) = (true, false))).
  - exact (eq_trans (validate_md_idempotent (E:=Demo.env) 1 2 dir (or_intror eq_refl))
             (eq_refl : (MetadataStore.is_valid (once dir),
                         MetadataStore.is_active (once dir)) = (true, true))).
Defined.

(** [validate_md_endpoint_returns_iff] at a remote store whose url answers
    404: [validate] returns, the store is valid and switched off. *)
Lemma validate_md_endpoint_returns_iff_witness :
  let self := Demo.md_row "remote" (Some "https://md.example.org/gone") None "{}" false true in
  let after := MetadataStore.validate (E:=Demo.env) 1 self in
  endpoint_check (E:=Demo.env) self = Ok 404%Z
  ∧ is_ok after.2 = true
  ∧ MetadataStore.is_valid after.1 = true ∧ MetadataStore.is_active after.1 = false.
Proof.
  intros self after. subst after. split; [reflexivity|].
  destruct (validate_md_endpoint_returns_iff (E:=Demo.env) 1 self (or_intror eq_refl))
    as (Hret & Hact & Hval).
  assert (Hok : is_ok (MetadataStore.validate (E:=Demo.env) 1 self).2 = true).
  { apply Hret. split; reflexivity. }
  split; [exact Hok|]. split; [exact (Hval Hok)|].
  apply not_true_is_false. intros Hon. apply Hact in Hon as (_ & Hst & _).
  discriminate Hst.
Defined.

(** ** Validation of a service provider, continued *)

Section sp_validate_more.
Import ServiceProvider.
Context `{E : Env}.

(** X8: [validate] writes [is_valid], [is_active] and [updated] and no other
    column; it never switches [is_active] on, and switches it off exactly
    when one of the three checks fails; and it never leaves a row active
    and invalid. *)
Theorem validate_sp_never_enables (now : Z) (self : ServiceProvider.t) :
  let self' := (validate now self).1 in
  self' = save now (set_is_valid (is_valid self') (set_is_active (is_active self') self))
  ∧ is_active self' = is_active self && negb (any_failure (sp_checks self))
  ∧ (is_active self' = true → is_valid self' = true).
Proof.
  unfold validate, any_failure, sp_checks.
  destruct (import_string (attribute_processor self)) as [e1|]; simpl;
    destruct (loads_mapping (attribute_mapping self)) as [|e2]; simpl;
    destruct (check_metadata _) as [e3|]; simpl;
    repeat (match goal with |- context [if ?b then _ else _] => destruct b end; simpl);
    repeat split; try done; destruct self; simpl; try reflexivity;
    try (by rewrite andb_false_r); by rewrite andb_true_r.
Qed.

Lemma str_truthy_false (s : string) : str_truthy s = false → s = "".
Proof. by destruct s. Qed.

Lemma str_truthy_app_r (a b : string) :
  str_truthy b = true → str_truthy (a +:+ b) = true.
Proof. destruct a; simpl; [done|]. by intros _. Qed.

(** X7: How a call of [validate] ends. When it raises, the message is the one
    of the last check that failed, in the order processor, mapping,
    metadata; it is not empty, and the row is left inactive and invalid.
    When it returns, it returns [True], [is_valid] is true, and no check
    has failed with a message that is not empty. *)
Theorem validate_sp_outcome (now : Z) (self : ServiceProvider.t) :
  let '(self', outcome) := validate now self in
  match outcome with
  | Raise msg =>
      sp_last_failure self = Some msg ∧ str_truthy msg = true
      ∧ is_valid self' = false ∧ is_active self' = false
  | Ok returned =>
      returned = true ∧ is_valid self' = true
      ∧ (sp_last_failure self = None ∨ sp_last_failure self = Some "")
  end.
Proof.
  unfold sp_last_failure, last_failure, sp_checks, validate.
  destruct (import_string (attribute_processor self)) as [e1|] eqn:Hi; simpl;
    destruct (loads_mapping (attribute_mapping self)) as [|e2] eqn:Hj; simpl;
    rewrite ?Hj; simpl;
    destruct (check_metadata self) as [e3|] eqn:Hm;
    unfold check_metadata in *; simpl in *; rewrite ?Hm; simpl;
    repeat (match goal with |- context [if ?b then _ else _] => destruct b eqn:? end; simpl);
    repeat split; try done; try (by left);
    try (right; f_equal; by apply str_truthy_false);
    exfalso;
    match goal with
    | H : str_truthy (_ +:+ _) = false |- _ => by rewrite str_truthy_app_r in H
    end.
Qed.

(** X9: A row on which [validate] returned has a mapping that parses, so its
    projection builds: a table whose active rows all come out of a
    [validate] that returned gives a configuration snapshot, with a record
    under each of their identifiers. *)
Theorem validated_rows_give_a_snapshot (objects : list ServiceProvider.t) :
  (∀ e, e ∈ objects → is_active e = true →
     ∃ now before returned, validate now before = (e, Ok returned)) →
  ∃ d, as_idpspconfig_dict objects = Ok d
    ∧ ∀ e, e ∈ objects → is_active e = true → is_Some (d !! entity_id e).
Proof.
  intros Hval. unfold as_idpspconfig_dict. fold (active objects).
  destruct (fill_returns (active objects))
    with (d := (∅ : gmap string (SPConfig json))) as [d Hd].
  - intros e He. apply active_elem in He as [Hin Hon].
    destruct (Hval e Hin Hon) as (now & before & returned & Hv).
    rewrite element_ok_iff.
    destruct (validate_sp_frame now before) as (_ & Hmap & _).
    rewrite Hv in Hmap. simpl in Hmap. rewrite Hmap.
    revert Hv. unfold validate.
    destruct (import_string (attribute_processor before)); simpl;
      destruct (loads_mapping (attribute_mapping before)); simpl;
      destruct (check_metadata _); simpl;
      repeat (match goal with |- context [if ?b then _ else _] => destruct b eqn:? end; simpl);
      try done; intros [= <- _]; simpl in Hon; discriminate Hon.
  - exists d. split; [done|]. intros e Hin Hon.
    apply (fill_has_key _ _ _ e Hd). by apply active_elem.
Qed.

End sp_validate_more.

(** [validated_rows_give_a_snapshot] at a table of one validated row. *)
Lemma validated_rows_give_a_snapshot_witness :
  let before := Demo.sp_row Demo.SP_ID DEFAULT_PROCESSOR (Some "{}") false true in
  let row := (ServiceProvider.validate (E:=Demo.env) 1 before).1 in
  ServiceProvider.is_active row = true
  ∧ ∃ d, ServiceProvider.as_idpspconfig_dict (E:=Demo.env) [row] = Ok d
      ∧ is_Some (d !! Demo.SP_ID).
Proof.
  intros before row. split; [reflexivity|].
  destruct (validated_rows_give_a_snapshot (E:=Demo.env) [row]) as (d & Hd & Hkey).
  - intros e He _. apply list_elem_of_singleton in He as ->.
    exists 1%Z, before, true. reflexivity.
  - exists d. split; [exact Hd|]. apply (Hkey row); [left|reflexivity].
Defined.

(** ** The snapshots, continued *)

Section snapshot_more.
Context `{E : Env}.
Variable settings : Settings.

Lemma fill_fmap_set_is_valid (f : ServiceProvider.t → bool) (entities : list ServiceProvider.t) :
  ∀ d, ServiceProvider.fill d ((λ e, ServiceProvider.set_is_valid (f e) e) <$> entities)
       = ServiceProvider.fill d entities.
Proof.
  induction entities as [|e rest IH]; intros d; simpl; [done|].
  change (ServiceProvider.as_idpspconfig_dict_element (ServiceProvider.set_is_valid (f e) e))
    with (ServiceProvider.as_idpspconfig_dict_element e).
  destruct (ServiceProvider.as_idpspconfig_dict_element e); simpl; [|done].
  apply IH.
Qed.

(** X10: [as_idpspconfig_dict] reads the active rows only and does not read
    [is_valid]: rewriting the [is_valid] flags of a table in any way, or
    dropping an inactive row, changes neither the dict returned nor the
    exception raised. An invalid row that is active is served like a valid
    one. *)
Theorem as_idpspconfig_dict_reads_active_rows_only :
  (∀ (f : ServiceProvider.t → bool) (objects : list ServiceProvider.t),
     ServiceProvider.as_idpspconfig_dict
       ((λ e, ServiceProvider.set_is_valid (f e) e) <$> objects)
     = ServiceProvider.as_idpspconfig_dict objects)
  ∧ (∀ (pre post : list ServiceProvider.t) (e : ServiceProvider.t),
       ServiceProvider.is_active e = false →
       ServiceProvider.as_idpspconfig_dict (pre ++ e :: post)
       = ServiceProvider.as_idpspconfig_dict (pre ++ post)).
Proof.
  split.
  - intros f objects. unfold ServiceProvider.as_idpspconfig_dict.
    rewrite <- (fill_fmap_set_is_valid f (filter _ objects) ∅). f_equal.
    induction objects as [|e rest IH]; [done|].
    rewrite fmap_cons, !filter_cons.
    change (ServiceProvider.is_active (ServiceProvider.set_is_valid (f e) e))
      with (ServiceProvider.is_active e).
    destruct (decide (ServiceProvider.is_active e = true));
      [rewrite fmap_cons|]; by rewrite IH.
  - intros pre post e Hoff. unfold ServiceProvider.as_idpspconfig_dict.
    rewrite !filter_app, filter_cons, decide_False; [done|congruence].
Qed.

(** The list under a key after the loop: what was there, then the
    descriptors of the rows filed under that key, in order. *)
Lemma collect_lists (stores : list MetadataStore.t) :
  ∀ d d' k, MetadataStore.collect settings d stores = Ok d' →
    default [] (d' !! k) = (default [] (d !! k) ++ filed_under settings k stores)%list.
Proof.
  induction stores as [|s rest IH]; intros d d' k Hc; simpl in *.
  - simplify_eq. unfold filed_under. simpl. by rewrite app_nil_r.
  - unfold filed_under. simpl.
    destruct (MetadataStore.as_pysaml2_mdstore_row settings s) as [v|msg]; [|done].
    simpl in Hc. rewrite (IH _ _ k Hc), append_under_lookup.
    destruct (decide (MetadataStore.group_key s v = k)) as [->|Hne]; simpl.
    + by rewrite <- app_assoc.
    + done.
Qed.

(** X11: What [as_pysaml_mdstore_dict] returns, key by key: under each key the
    descriptors of the active and valid rows filed under it, in the order
    of the table, and no key with an empty list. *)
Theorem as_pysaml_mdstore_dict_lists (objects : list MetadataStore.t)
    (d : gmap string (list (MetadataStore.descriptor json))) :
  MetadataStore.as_pysaml_mdstore_dict settings objects = Ok d →
  ∀ k, match d !! k with
       | Some vs => vs ≠ [] ∧ vs = filed_under settings k (gated objects)
       | None => filed_under settings k (gated objects) = []
       end.
Proof.
  intros Hd k. unfold MetadataStore.as_pysaml_mdstore_dict in Hd. fold (gated objects) in Hd.
  pose proof (collect_lists _ _ _ k Hd) as Hk. rewrite lookup_empty in Hk. simpl in Hk.
  destruct (d !! k) as [vs|] eqn:Hlook; simpl in Hk; [|done].
  split; [|done]. intros ->.
  eapply collect_nonempty; [|exact Hd|exact Hlook].
  intros k'. by rewrite lookup_empty.
Qed.

(** X12: The keys of the snapshot: [remote], and [local] when the files are not
    kept in the S3 storage. Stores of type [mdq], and local stores on S3,
    are all filed under [remote]. *)
Theorem as_pysaml_mdstore_dict_keys (objects : list MetadataStore.t)
    (d : gmap string (list (MetadataStore.descriptor json))) (k : string) :
  update_keeps_keys E →
  MetadataStore.as_pysaml_mdstore_dict settings objects = Ok d →
  is_Some (d !! k) →
  k = "remote"
  ∨ (k = "local" ∧ DEFAULT_FILE_STORAGE settings ≠ MetadataStore.S3_STORAGE).
Proof.
  intros Hkeep Hd [vs Hk]. unfold MetadataStore.as_pysaml_mdstore_dict in Hd.
  destruct vs as [|v vs].
  { exfalso. eapply collect_nonempty; [|exact Hd|exact Hk].
    intros k'. by rewrite lookup_empty. }
  destruct (collect_origin settings _ _ _ k (v :: vs) v Hd Hk)
    as [(vs0 & H0 & _)|(s & _ & Hrow & Hkey)]; [left| |].
  { by rewrite lookup_empty in H0. }
  subst k. unfold MetadataStore.group_key.
  destruct (MetadataStore.is_url_dict v) eqn:Hv; [by left|right].
  revert Hrow. unfold MetadataStore.as_pysaml2_mdstore_row.
  destruct (bool_decide (MetadataStore.type s = "remote" ∨ MetadataStore.type s = "mdq")) eqn:Hep.
  { apply bool_decide_eq_true in Hep. intros Hrow.
    rewrite (row_of_endpoint_is_url_dict settings s v Hkeep Hep) in Hv; [done|].
    unfold MetadataStore.as_pysaml2_mdstore_row.
    by rewrite (bool_decide_eq_true_2 _ Hep). }
  destruct (bool_decide (MetadataStore.type s = "local")) eqn:Hloc; [|done].
  apply bool_decide_eq_true in Hloc.
  destruct (bool_decide (DEFAULT_FILE_STORAGE settings = MetadataStore.S3_STORAGE)) eqn:Hs3.
  - destruct (MetadataStore.file_url s) as [u|]; simpl; [|done].
    intros [= <-]. simpl in Hv. rewrite lookup_singleton_eq in Hv.
    by rewrite bool_decide_eq_true_2 in Hv.
  - apply bool_decide_eq_false in Hs3. done.
Qed.

(** X13: A store that [validate] accepts and the snapshot cannot describe.
    [validate] checks nothing but [kwargs] for a type other than [mdq],
    [remote] and [local], while [as_pysaml2_mdstore_row] raises for it; and
    on the S3 storage the descriptor of a local store is the url of its
    file, which raises when the store has a directory and no file. Either
    store, once active and valid, makes [as_pysaml_mdstore_dict] raise for
    the whole table. *)
Theorem accepted_store_aborts_snapshot (now : Z) (self : MetadataStore.t)
    (objects : list MetadataStore.t) :
  (MetadataStore.type self ≠ "mdq" ∧ MetadataStore.type self ≠ "remote"
   ∧ MetadataStore.type self ≠ "local")
  ∨ (MetadataStore.type self = "local"
     ∧ DEFAULT_FILE_STORAGE settings = MetadataStore.S3_STORAGE
     ∧ truthy (MetadataStore.file self) = false
     ∧ truthy (MetadataStore.url self) = true
     ∧ MetadataStore.check_local self = Ok tt) →
  is_ok (json_loads (MetadataStore.kwargs self)) = true →
  MetadataStore.is_active self = true →
  let self' := (MetadataStore.validate now self).1 in
  (MetadataStore.validate now self).2 = Ok true
  ∧ MetadataStore.is_valid self' = true ∧ MetadataStore.is_active self' = true
  ∧ is_ok (MetadataStore.as_pysaml2_mdstore_row settings self') = false
  ∧ (self' ∈ objects →
     is_ok (MetadataStore.as_pysaml_mdstore_dict settings objects) = false).
Proof.
  intros Hcase Hkw Hon self'.
  assert (Hval : (MetadataStore.validate now self).2 = Ok true
                 ∧ MetadataStore.is_valid self' = true
                 ∧ MetadataStore.is_active self' = true).
  { subst self'. unfold MetadataStore.validate.
    destruct Hcase as [(Hq & Hr & Hl)|(Hl & _ & Hf & Hu & Hcheck)].
    - rewrite !bool_decide_eq_false_2 by done. simpl.
      destruct (json_loads (MetadataStore.kwargs self)); [|done]. simpl. by rewrite Hon.
    - rewrite Hl. simpl. rewrite Hcheck. simpl. rewrite Hu. simpl.
      destruct (json_loads (MetadataStore.kwargs self)); [|done]. simpl. by rewrite Hon. }
  assert (Hrow : is_ok (MetadataStore.as_pysaml2_mdstore_row settings self') = false).
  { unfold self'. rewrite (validate_md_frame now self).
    unfold MetadataStore.as_pysaml2_mdstore_row, MetadataStore.file_url. simpl.
    destruct Hcase as [(Hq & Hr & Hl)|(Hl & Hs3 & Hf & _ & _)].
    - rewrite !bool_decide_eq_false_2; [done|done|]. intros [?|?]; done.
    - rewrite Hl, Hs3, Hf. reflexivity. }
  destruct Hval as (Hret & Hv & Ha). repeat split; try done.
  intros Hin. unfold MetadataStore.as_pysaml_mdstore_dict.
  apply (collect_raises settings _ self'); [|done].
  apply list_elem_of_filter. done.
Qed.

End snapshot_more.

(** [as_pysaml_mdstore_dict_lists] at a table of a remote, a local and an
    [mdq] store: the two endpoint stores share the key [remote], in table
    order. *)
Lemma as_pysaml_mdstore_dict_lists_witness :
  let cfg := Demo.settings "django.core.files.storage.FileSystemStorage" None in
  let remote := Demo.md_row "remote" (Some "https://md.example.org/metadata") None "{}" true true in
  let dir := Demo.md_row "local" (Some "/srv/metadata") None "{}" true true in
  let mdq := Demo.md_row "mdq" (Some "https://mdq.example.org") None "{}" true true in
  ∃ d, MetadataStore.as_pysaml_mdstore_dict (E:=Demo.env) cfg [remote; dir; mdq] = Ok d
    ∧ d !! "remote"
      = Some [MetadataStore.Mapping {[ "url" := PStr "https://md.example.org/metadata" ]};
              MetadataStore.Mapping {[ "url" := PStr "https://mdq.example.org" ]}]
    ∧ d !! "local" = Some [MetadataStore.Bare (Some "/srv/metadata")].
Proof.
  intros cfg remote dir mdq.
  destruct (MetadataStore.as_pysaml_mdstore_dict (E:=Demo.env) cfg [remote; dir; mdq])
    as [d|msg] eqn:Hd; [|discriminate Hd].
  exists d. split; [reflexivity|].
  pose proof (as_pysaml_mdstore_dict_lists (E:=Demo.env) cfg _ d Hd "remote") as Hr.
  pose proof (as_pysaml_mdstore_dict_lists (E:=Demo.env) cfg _ d Hd "local") as Hl.
  destruct (d !! "remote") as [vs|]; [|discriminate Hr].
  destruct (d !! "local") as [ws|]; [|discriminate Hl].
  destruct Hr as [_ ->]. destruct Hl as [_ ->]. split; reflexivity.
Defined.

(** [as_pysaml_mdstore_dict_keys] at a table with one [mdq] store. *)
Lemma as_pysaml_mdstore_dict_keys_witness :
  let cfg := Demo.settings "django.core.files.storage.FileSystemStorage" None in
  let mdq := Demo.md_row "mdq" (Some "https://mdq.example.org") None "{}" true true in
  update_keeps_keys Demo.env
  ∧ ∃ d, MetadataStore.as_pysaml_mdstore_dict (E:=Demo.env) cfg [mdq] = Ok d
      ∧ is_Some (d !! "remote") ∧ d !! "mdq" = None.
Proof.
  intros cfg mdq. split; [exact demo_update_keeps_keys|].
  destruct (MetadataStore.as_pysaml_mdstore_dict (E:=Demo.env) cfg [mdq])
    as [d|msg] eqn:Hd; [|discriminate Hd].
  exists d. split; [reflexivity|]. split.
  - injection Hd as <-. eexists. reflexivity.
  - destruct (d !! "mdq") as [vs|] eqn:Hq; [exfalso|reflexivity].
    destruct (as_pysaml_mdstore_dict_keys (E:=Demo.env) cfg [mdq] d "mdq"
                demo_update_keeps_keys Hd (ex_intro _ vs Hq)) as [Hk|[Hk _]];
      discriminate Hk.
Defined.

(** [accepted_store_aborts_snapshot] at an active store of type [file], a
    type the help text of the [file] column mentions. *)
Lemma accepted_store_aborts_snapshot_witness :
  let cfg := Demo.settings "django.core.files.storage.FileSystemStorage" None in
  let self := Demo.md_row "file" None (Some "sp.xml") "{}" false true in
  let self' := (MetadataStore.validate (E:=Demo.env) 1 self).1 in
  (MetadataStore.validate (E:=Demo.env) 1 self).2 = Ok true
  ∧ is_ok (MetadataStore.as_pysaml_mdstore_dict (E:=Demo.env) cfg [self']) = false.
Proof.
  intros cfg self self'.
  destruct (accepted_store_aborts_snapshot (E:=Demo.env) cfg 1 self [self'])
    as (Hret & _ & _ & _ & Habort).
  - left. repeat split; discriminate.
  - reflexivity.
  - reflexivity.
  - split; [exact Hret|]. apply Habort. left.
Defined.

(** ** Consent records, continued *)

Section agreement_more.
Import AgreementRecord.

(** X14: Expiry only moves forward: a record that [is_expired] reports
    expired is reported expired at every later time, and whether the call
    raises, and what, does not depend on the current time. Under a positive
    window whose end, [created] plus that many hours, is a date-time, a
    record is not expired up to and including that end, its creation time
    included. *)
Theorem is_expired_forward_only (settings : Settings) (r : AgreementRecord.t) :
  (∀ now later : Z, (now ≤ later)%Z →
     is_expired settings now r = Returns true →
     is_expired settings later r = Returns true)
  ∧ (∀ (now later : Z) (e : exception),
       is_expired settings now r = Raises e → is_expired settings later r = Raises e)
  ∧ (∀ h now : Z, SAML_IDP_USER_AGREEMENT_VALID_FOR settings = IsInt h →
       (0 < h)%Z →
       (-999999999 ≤ h / 24 ≤ 999999999)%Z →
       (0 ≤ created r + h * Demo.HOUR ≤ DATETIME_MAX)%Z →
       (now ≤ created r + h * Demo.HOUR)%Z →
       is_expired settings now r = Returns false
       ∧ is_expired settings (created r) r = Returns false).
Proof.
  unfold is_expired, timedelta_hours, datetime_add, Demo.HOUR. split; [|split].
  - intros now later Hle.
    destruct (SAML_IDP_USER_AGREEMENT_VALID_FOR settings) as [| |h]; [done..|].
    destruct (h =? 0)%Z; [done|].
    destruct (bool_decide (-999999999 ≤ h / 24 ≤ 999999999)%Z); [|done].
    destruct (bool_decide (0 ≤ created r + h * 3600000000 ≤ DATETIME_MAX)%Z); [|done].
    intros [= Hnow]. f_equal. apply bool_decide_eq_true in Hnow.
    apply bool_decide_eq_true. lia.
  - intros now later e.
    destruct (SAML_IDP_USER_AGREEMENT_VALID_FOR settings) as [| |h]; [done..|].
    destruct (h =? 0)%Z; [done|].
    destruct (bool_decide (-999999999 ≤ h / 24 ≤ 999999999)%Z); [|done].
    destruct (bool_decide (0 ≤ created r + h * 3600000000 ≤ DATETIME_MAX)%Z); done.
  - intros h now -> Hpos Hdays Hend Hnow.
    destruct (Z.eqb_spec h 0) as [->|_]; [lia|].
    rewrite !bool_decide_eq_true_2 by done.
    split; f_equal; apply bool_decide_eq_false; lia.
Qed.

Lemma split_sep_free (sep : ascii) (s : string) :
  occurs sep s = false → split sep s = [s].
Proof.
  induction s as [|c rest IH]; simpl; [done|].
  intros Hocc. apply orb_false_iff in Hocc as [Hc Hrest].
  apply bool_decide_eq_false in Hc.
  rewrite decide_False by done. by rewrite (IH Hrest).
Qed.

Lemma split_field_then_rest (sep : ascii) (s rest : string) :
  occurs sep s = false →
  split sep (s +:+ String sep rest) = s :: split sep rest.
Proof.
  induction s as [|c s' IH]; simpl.
  - intros _. by rewrite decide_True.
  - intros Hocc. apply orb_false_iff in Hocc as [Hc Hrest].
    apply bool_decide_eq_false in Hc.
    rewrite decide_False by done. by rewrite (IH Hrest).
Qed.

(** Splitting undoes joining: the names of a list that is not empty, none
    of which holds a comma, are recovered from the joined text. *)
Lemma split_join (names : list string) :
  names ≠ [] → Forall (λ n, occurs "," n = false) names →
  split "," (join "," names) = names.
Proof.
  induction names as [|x rest IH]; [done|]. intros _ Hfree.
  apply Forall_cons in Hfree as [Hx Hrest].
  destruct rest as [|y rest'].
  - simpl. by apply split_sep_free.
  - change (join "," (x :: y :: rest')) with (x +:+ String "," (join "," (y :: rest'))).
    rewrite (split_field_then_rest _ _ _ Hx). f_equal. by apply IH.
Qed.

(** X15: The whole path of a consent: for a record whose [attrs] column is the
    comma-joined list of the names agreed to (at least one, none holding a
    comma), [wants_more_attrs] is true exactly when some requested name was
    not agreed to. The request's order and repetitions do not matter, and
    an empty request never wants more. *)
Theorem wants_more_attrs_of_joined (agreed requested : list string)
    (u : nat) (sp : string) (at_ : Z) :
  agreed ≠ [] → Forall (λ n, occurs "," n = false) agreed →
  let record := {| user := u; sp_entity_id := sp; attrs := join "," agreed;
                   created := at_ |} in
  (wants_more_attrs record requested = true ↔ ∃ a, a ∈ requested ∧ a ∉ agreed)
  ∧ wants_more_attrs record [] = false
  ∧ (∀ requested', (∀ a, a ∈ requested ↔ a ∈ requested') →
       wants_more_attrs record requested' = wants_more_attrs record requested).
Proof.
  intros Hne Hfree record.
  assert (Hiff : ∀ req, wants_more_attrs record req = true ↔ ∃ a, a ∈ req ∧ a ∉ agreed).
  { intros req. rewrite wants_more_attrs_iff. simpl. rewrite (split_join agreed Hne Hfree).
    split.
    - intros Hnot.
      assert (Hnf : ¬ Forall (λ a, a ∈ agreed) req) by (by rewrite Forall_forall).
      apply not_Forall_Exists in Hnf; [|apply _].
      apply Exists_exists in Hnf as (a & Ha & Hna). eauto.
    - intros (a & Ha & Hna) Hall. by apply Hna, Hall. }
  split; [apply Hiff|]. split.
  - apply not_true_is_false. rewrite Hiff. intros (a & Ha & _).
    by apply elem_of_nil in Ha.
  - intros requested' Hsame.
    destruct (wants_more_attrs record requested) eqn:Hw.
    + apply Hiff. apply Hiff in Hw as (a & Ha & Hna). exists a. split; [by apply Hsame|done].
    + apply not_true_is_false. rewrite Hiff. intros (a & Ha & Hna).
      apply not_true_iff_false in Hw. apply Hw, Hiff. exists a.
      split; [by apply Hsame|done].
Qed.

End agreement_more.

(** [wants_more_attrs_of_joined] at a consent to two names and a request
    that adds a third. *)
Lemma wants_more_attrs_of_joined_witness :
  let agreed := ["email"; "first_name"] in
  join "," agreed = "email,first_name"
  ∧ AgreementRecord.wants_more_attrs (Demo.consent (join "," agreed) 0)
      ["last_name"; "email"] = true.
Proof.
  intros agreed. split; [reflexivity|].
  destruct (wants_more_attrs_of_joined agreed ["last_name"; "email"] 1 Demo.SP_ID 0)
    as [Hiff _].
  - discriminate.
  - repeat constructor.
  - apply Hiff. exists "last_name". split; [left|].
    intros Hin. repeat (apply elem_of_cons in Hin as [Hin|Hin]; [discriminate Hin|]).
    by apply elem_of_nil in Hin.
Defined.

(** ** Changed fields of a metadata store *)

Section field_value_changed_facts.
Import MetadataStoreInstance.
Context `{E : Env}.

Lemma lookup_loaded (l : list (string * value)) (k : string) :
  (list_to_map l : gmap string value) !! k = assoc k l.
Proof.
  induction l as [|[k' v] rest IH]; simpl; [apply lookup_empty|].
  rewrite lookup_insert. destruct (decide (k' = k)); [done|]. apply IH.
Qed.

(** The value loaded for a field is the one the loaded instance holds. *)
Lemma loaded_value_from_db (key : Z) (row : MetadataStore.t) (k : string) :
  default ∅ (_loaded_db_values (from_db key row)) !! k = getattr (from_db key row) k.
Proof. exact (lookup_loaded _ k). Qed.

(** X17: [field_value_changed] reports no change on an instance as [from_db]
    loaded it, none on an instance that was never loaded (it has no
    [_loaded_db_values] to compare with), whatever was assigned to it, and
    none for a field that was not among the values loaded. *)
Theorem field_value_changed_needs_loaded_value :
  (∀ key row field_name changed,
     field_value_changed (from_db key row) field_name = Some changed → changed = false)
  ∧ (∀ self field_name changed,
       _loaded_db_values self = None ∨
       (∃ loaded, _loaded_db_values self = Some loaded ∧ loaded !! field_name = None) →
       field_value_changed self field_name = Some changed → changed = false).
Proof.
  split.
  - intros key row field_name changed. unfold field_value_changed.
    rewrite loaded_value_from_db.
    destruct (getattr (from_db key row) field_name) as [current|]; simpl; [|done].
    intros [= <-]. apply bool_decide_eq_false. intros H. by apply H.
  - intros self field_name changed Hloaded. unfold field_value_changed.
    destruct (getattr self field_name) as [current|]; simpl; [|done].
    intros [= <-]. apply bool_decide_eq_false. intros H. apply H.
    destruct Hloaded as [Hn|(loaded & Hl & Hk)].
    + rewrite Hn. simpl. by rewrite lookup_empty.
    + rewrite Hl. simpl. by rewrite Hk.
Qed.

(** On an instance that still has the values [from_db] loaded, a field is
    compared with the value the loaded instance held. *)
Lemma field_value_changed_vs_loaded (key : Z) (row : MetadataStore.t)
    (self : MetadataStoreInstance.t) (k : string) (current loaded : value) :
  _loaded_db_values self = _loaded_db_values (from_db key row) →
  getattr self k = Some current →
  getattr (from_db key row) k = Some loaded →
  field_value_changed self k = Some (bool_decide (current ≠ loaded)).
Proof.
  intros Hl Hc Hk. unfold field_value_changed.
  rewrite Hl, loaded_value_from_db, Hc, Hk. reflexivity.
Qed.

(** X18: After [validate] on an instance loaded from the database, the fields
    reported as changed are among [is_valid], [is_active] and [updated]:
    [is_active] exactly when [validate] switched the store off, [is_valid]
    exactly when its value differs from the one loaded, and no other field
    is ever reported. *)
Theorem field_value_changed_after_validate (key fresh now : Z) (row : MetadataStore.t) :
  let after := (validate fresh now (from_db key row)).1 in
  field_value_changed after "is_active"
  = Some (MetadataStore.is_active row
          && negb (MetadataStore.is_active (MetadataStore.validate now row).1))
  ∧ field_value_changed after "is_valid"
    = Some (xorb (MetadataStore.is_valid row)
                 (MetadataStore.is_valid (MetadataStore.validate now row).1))
  ∧ field_value_changed after "updated"
    = Some (bool_decide (MetadataStore.updated row ≠ Some now))
  ∧ ∀ field_name, field_name ∈ ["id"; "name"; "url"; "file"; "type"; "kwargs"; "created"] →
      field_value_changed after field_name = Some false.
Proof.
  intros after.
  assert (Hl : _loaded_db_values after = _loaded_db_values (from_db key row)).
  { subst after. unfold validate. by destruct (MetadataStore.validate _ _). }
  assert (Hf : fields after = (MetadataStore.validate now row).1).
  { subst after. unfold validate. simpl. by destruct (MetadataStore.validate _ _). }
  assert (Hid : id after = Some key).
  { subst after. unfold validate. simpl. by destruct (MetadataStore.validate _ _). }
  pose proof (validate_md_frame now row) as Hframe.
  pose proof (validate_md_keeps_off now row) as Hnever.
  rewrite <- Hf in Hframe, Hnever |- *. clearbody after.
  pose proof (λ k c l, field_value_changed_vs_loaded key row after k c l Hl) as Hcmp.
  clear Hl. destruct after as [k' row' loaded]. simpl in Hid, Hf, Hframe, Hnever |- *.
  subst k'.
  split; [|split; [|split]].
  - erewrite Hcmp; [|reflexivity..]. f_equal. simpl.
    destruct (MetadataStore.is_active row), (MetadataStore.is_active row');
      try reflexivity.
    by specialize (Hnever eq_refl).
  - erewrite Hcmp; [|reflexivity..]. f_equal. simpl.
    by destruct (MetadataStore.is_valid row), (MetadataStore.is_valid row').
  - erewrite Hcmp; [|reflexivity..]. f_equal. rewrite Hframe. simpl.
    destruct (MetadataStore.updated row) as [t|]; simpl.
    + apply bool_decide_ext. split; intros H ?; apply H; congruence.
    + reflexivity.
  - intros field_name Hin.
    assert (Hsame : MetadataStore.name row' = MetadataStore.name row
                    ∧ MetadataStore.url row' = MetadataStore.url row
                    ∧ MetadataStore.file row' = MetadataStore.file row
                    ∧ MetadataStore.type row' = MetadataStore.type row
                    ∧ MetadataStore.kwargs row' = MetadataStore.kwargs row
                    ∧ MetadataStore.created row' = MetadataStore.created row).
    { rewrite Hframe. repeat split. }
    destruct Hsame as (Hn & Hu & Hfi & Hty & Hkw & Hcr).
    repeat (apply elem_of_cons in Hin as [->|Hin];
            [erewrite Hcmp; [|reflexivity..]; f_equal; simpl;
             rewrite ?Hn, ?Hu, ?Hfi, ?Hty, ?Hkw, ?Hcr;
             apply bool_decide_eq_false; intros H; by apply H|]).
    by apply elem_of_nil in Hin.
Qed.

End field_value_changed_facts.
